(** * Oral-fluency scoring pipeline of CALLME: a shallow embedding

    The functions below follow [src/fluency.py] and
    [src/callme-project_integrate_version1/backend/utils/audio/fluency.py]
    (the two files share every helper verbatim; the second one adds the
    scoring [process_one] and the [evaluate_fluency] interface).

    Python floats are modelled as exact rationals ([Q]): comparisons,
    sums, products and quotients are the mathematical ones, rounding is
    not modelled.  Two results of numpy that depend on its
    floating-point arithmetic are parameters of the development: the
    square root inside [np.std], and the number of values of
    [np.arange], a ceiling of a floating-point quotient. *)

From Stdlib Require Import QArith Qround Lqa ZArith List String Ascii Bool Lia.
Import ListNotations.
Open Scope Q_scope.

(** ** Comparisons on floats *)

Definition Qleb (x y : Q) : bool := Qle_bool x y.
Definition Qltb (x y : Q) : bool := negb (Qle_bool y x).

Notation "x <=? y" := (Qleb x y) (at level 70, no associativity) : Q_scope.
Notation "x <? y" := (Qltb x y) (at level 70, no associativity) : Q_scope.
Notation "x >=? y" := (Qleb y x) (at level 70, no associativity, only parsing) : Q_scope.
Notation "x >? y" := (Qltb y x) (at level 70, no associativity, only parsing) : Q_scope.
Notation "x =? y" := (Qeq_bool x y) (at level 70, no associativity) : Q_scope.

(** Python's [max(a, b)]: the first argument unless the second is
    strictly larger. *)
Definition py_max (a b : Q) : Q := if a <? b then b else a.

(** ** Data model *)

(** A speech or silence interval [(start, end)], in seconds. *)
Definition seg : Type := (Q * Q)%type.

(** [@dataclass class Word] *)
Record Word : Type := mkWord { text : string; start : Q; end_ : Q }.

(** ** Voice-activity post-processing ([run_pyannote_vad], lines 73-84) *)

(** Tuple comparison [a < b] as [list.sort] uses it. *)
Definition seg_ltb (a b : seg) : bool :=
  (fst a <? fst b) || ((fst a =? fst b) && (snd a <? snd b)).

Fixpoint insert_seg (x : seg) (l : list seg) : list seg :=
  match l with
  | [] => [x]
  | y :: r => if seg_ltb y x then y :: insert_seg x r else x :: l
  end.

(** [segments.sort()]: a stable sort. *)
Definition sort_segs (l : list seg) : list seg := fold_right insert_seg [] l.

(** One iteration of [for s, e in segments]: [merged] is the list built
    so far, whose last element the loop may overwrite. *)
Definition merge_step (merged : list seg) (x : seg) : list seg :=
  match merged with
  | [] => merged ++ [x]
  | m0 :: _ =>
      let lst := last merged m0 in
      if fst x - snd lst <? 0.15
      then removelast merged ++ [(fst lst, py_max (snd lst) (snd x))]
      else merged ++ [x]
  end.

(** The merge pass over a list of segments, starting from [merged = []]. *)
Definition merge_pass (segments : list seg) : list seg :=
  fold_left merge_step segments [].

(** What [run_pyannote_vad] does with the timeline the detector gave. *)
Definition merge_timeline (segments : list seg) : list seg :=
  merge_pass (sort_segs segments).

(** ** Derived silences ([silences_from_speech], lines 86-97) *)

Definition gap_between (p : seg * seg) : list seg :=
  let '((_, e1), (s2, _)) := p in
  if s2 >? e1 then [(e1, s2)] else [].

Definition silences_from_speech (segs : list seg) (total : Q) : list seg :=
  match segs with
  | [] => [(0, total)]
  | first :: _ =>
      let sil := if fst first >? 0 then [(0, fst first)] else [] in
      let sil := sil ++ flat_map gap_between (combine segs (tl segs)) in
      let final := last segs first in
      if snd final <? total then sil ++ [(snd final, total)] else sil
  end.

(** ** Word recognition ([run_whisperx_words], lines 120-131) *)

Definition is_space (c : ascii) : bool :=
  let n := nat_of_ascii c in
  ((9 <=? n) && (n <=? 13) || (n =? 32))%nat.

Fixpoint lstrip (l : list ascii) : list ascii :=
  match l with
  | c :: r => if is_space c then lstrip r else l
  | [] => []
  end.

(** [str.strip()] on the characters of a string. *)
Definition strip (s : string) : string :=
  string_of_list_ascii (rev (lstrip (rev (lstrip (list_ascii_of_string s))))).

(** The words kept out of everything the recognizer emitted: those
    whose stripped text is not empty, with the stripped text. *)
Definition collect_words (raw : list Word) : list Word :=
  map (fun w => mkWord (strip (text w)) (start w) (end_ w))
      (filter (fun w => negb (String.eqb (strip (text w)) "")) raw).

(** [ch.isalpha()] on the ASCII range. *)
Definition isalpha (c : ascii) : bool :=
  let n := nat_of_ascii c in
  ((65 <=? n) && (n <=? 90) || (97 <=? n) && (n <=? 122))%nat.

(** [any(ch.isalpha() for ch in w.text)] *)
Definition has_alpha (w : Word) : bool :=
  existsb isalpha (list_ascii_of_string (text w)).

(** ** Features (lines 138-182) *)

Definition Qnat (n : nat) : Q := inject_Z (Z.of_nat n).

Definition words_per_min (n_words : nat) (dur_sec : Q) : Q :=
  if dur_sec <=? 1e-6 then 0 else Qnat n_words / (dur_sec / 60).

(** [sum(e - s for s, e in segs)] *)
Definition sum_lengths (segs : list seg) : Q :=
  fold_left Qplus (map (fun x => snd x - fst x) segs) 0.

Definition articulation_time (speech_segs : list seg) : Q :=
  sum_lengths speech_segs.

Definition is_long_pause (min_long : Q) (x : seg) : bool :=
  (snd x - fst x) >=? min_long.

Definition long_pause_freq (silences : list seg) (min_long total : Q) : Q :=
  let n := fold_left Nat.add
             (map (fun _ => 1%nat) (filter (is_long_pause min_long) silences)) 0%nat in
  if total <=? 1e-6 then 0 else Qnat n / (total / 60).

Fixpoint insert_word (w : Word) (l : list Word) : list Word :=
  match l with
  | [] => [w]
  | y :: r => if start y <? start w then y :: insert_word w r else w :: l
  end.

(** [sorted(words, key=lambda w: w.start)]: stable. *)
Definition sort_words (words : list Word) : list Word :=
  fold_right insert_word [] words.

(** [float(np.mean(runs))] on a list of integers. *)
Definition np_mean (runs : list nat) : Q :=
  Qnat (fold_left Nat.add runs 0%nat) / Qnat (List.length runs).

(** The body of [for i in range(1, len(ws))] on the pair
    [(ws[i-1], ws[i])], with the loop state [(runs, run_len)]. *)
Definition mlfr_step (pause_thr : Q) (st : list nat * nat) (p : Word * Word)
  : list nat * nat :=
  let '(runs, run_len) := st in
  let gap := py_max 0 (start (snd p) - end_ (fst p)) in
  if gap >=? pause_thr then (runs ++ [run_len], 1%nat) else (runs, S run_len).

Definition mlfr_runs (words : list Word) (pause_thr : Q) : list nat :=
  let ws := sort_words words in
  let '(runs, run_len) :=
    fold_left (mlfr_step pause_thr) (combine ws (tl ws)) ([], 1%nat) in
  runs ++ [run_len].

Definition mlfr (words : list Word) (pause_thr : Q) : Q :=
  match words with
  | [] => 0
  | _ :: _ =>
      let runs := mlfr_runs words pause_thr in
      match runs with [] => 0 | _ :: _ => np_mean runs end
  end.

Section WithArange.

(** The number of values of [np.arange(start, stop, step)].  numpy takes
    the ceiling of [(stop - start) / step] as floating-point arithmetic
    gives it, which is not always the ceiling of the exact quotient
    ([np.arange(1.1, 16.1, 5.0)] has four values, the quotient being
    [3.0000000000000004]); the number is left open here. *)
Variable np_arange_len : Q -> Q -> Q -> nat.

(** [np.arange(start, stop, step)]: the values [start + i * step]. *)
Definition np_arange (lo hi step : Q) : list Q :=
  map (fun i => lo + Qnat i * step) (seq 0 (np_arange_len lo hi step)).

(** [max(w.end for w in words)] for a list starting with [w0]. *)
Definition max_end (w0 : Word) (rest : list Word) : Q :=
  fold_left py_max (map end_ rest) (end_ w0).

(** The inner [while] of [rate_stability] on [words[wi:]]: it returns the
    index and the count it stops with. *)
Fixpoint scan_window (rest : list Word) (s e : Q) (wi c : nat) : nat * nat :=
  match rest with
  | [] => (wi, c)
  | w :: rest' =>
      if start w <? e
      then scan_window rest' s e (S wi) (if end_ w >? s then S c else c)
      else (wi, c)
  end.

(** The outer [for b in range(len(bins) - 1)], over the pairs
    [(bins[b], bins[b+1])]; [wi] is carried from window to window. *)
Fixpoint window_rates (words : list Word) (window_sec : Q)
    (windows : list (Q * Q)) (wi : nat) : list Q :=
  match windows with
  | [] => []
  | (s, e) :: more =>
      let '(wi', c) := scan_window (skipn wi words) s e wi 0 in
      (Qnat c / (window_sec / 60))
        :: window_rates words window_sec more (Nat.max 0 (wi' - 5))
  end.

(** [wpm_list] as [rate_stability] has it when it reaches its last line. *)
Definition wpm_list (w0 : Word) (rest : list Word) (window_sec : Q) : list Q :=
  let t0 := start w0 in
  let t1 := max_end w0 rest in
  let bins := np_arange t0 (t1 + window_sec) window_sec in
  window_rates (w0 :: rest) window_sec (combine bins (tl bins)) 0.

End WithArange.

Definition Qsum (xs : list Q) : Q := fold_left Qplus xs 0.

(** The quantity under the square root of [np.std(xs, ddof=1)]. *)
Definition sample_variance (xs : list Q) : Q :=
  let mean := Qsum xs / Qnat (List.length xs) in
  Qsum (map (fun x => (x - mean) * (x - mean)) xs) / (Qnat (List.length xs) - 1).

Section WithSqrt.

(** The floating-point square root of numpy, and the number of values of
    its [arange]. *)
Variable np_sqrt : Q -> Q.
Variable np_arange_len : Q -> Q -> Q -> nat.

(** [np.std(xs, ddof=1)] *)
Definition np_std_ddof1 (xs : list Q) : Q := np_sqrt (sample_variance xs).

Definition rate_stability (words : list Word) (window_sec : Q) : Q :=
  match words with
  | [] => 0
  | w0 :: rest =>
      if max_end w0 rest - start w0 <? window_sec then 0
      else
        let rates := wpm_list np_arange_len w0 rest window_sec in
        if (2 <=? List.length rates)%nat then np_std_ddof1 rates else 0
  end.

End WithSqrt.

(** ** Scoring (lines 274-403) *)

Definition TIMING : list string := ["SR"; "AR"; "PR"; "MLFR"; "LPF"; "RateSD"]%string.
Definition PROSODY : list string := ["F0_IQR"; "RMS_IQR"]%string.

Definition score_metric (value : Q) (metric_name : string) : Q :=
  if String.eqb metric_name "SR" then
    if value >=? 160 then 1.0
    else if value >=? 140 then 0.9
    else if value >=? 120 then 0.7
    else if value >=? 100 then 0.5
    else if value >=? 80 then 0.3
    else 0.1
  else if String.eqb metric_name "AR" then
    if value >=? 180 then 1.0
    else if value >=? 160 then 0.9
    else if value >=? 140 then 0.7
    else if value >=? 120 then 0.5
    else if value >=? 100 then 0.3
    else 0.1
  else if String.eqb metric_name "PR" then
    if (0.15 <=? value) && (value <=? 0.25) then 1.0
    else if (0.10 <=? value) && (value <? 0.15) || (0.25 <? value) && (value <=? 0.30) then 0.8
    else if (0.30 <? value) && (value <=? 0.35) then 0.6
    else if (0.35 <? value) && (value <=? 0.40) then 0.4
    else if (0.40 <? value) && (value <=? 0.50) then 0.2
    else 0.1
  else if String.eqb metric_name "MLFR" then
    if value >=? 10 then 1.0
    else if value >=? 8 then 0.8
    else if value >=? 6 then 0.6
    else if value >=? 5 then 0.4
    else if value >=? 3 then 0.2
    else 0.1
  else if String.eqb metric_name "LPF" then
    if value <=? 2 then 1.0
    else if value <=? 3 then 0.8
    else if value <=? 4 then 0.6
    else if value <=? 5 then 0.4
    else if value <=? 7 then 0.2
    else 0.1
  else if String.eqb metric_name "RateSD" then
    if value <=? 30 then 1.0
    else if value <=? 40 then 0.8
    else if value <=? 50 then 0.6
    else if value <=? 65 then 0.4
    else if value <=? 80 then 0.2
    else 0.1
  else if String.eqb metric_name "F0_IQR" then
    if (40 <=? value) && (value <=? 80) then 1.0
    else if (30 <=? value) && (value <? 40) || (80 <? value) && (value <=? 90) then 0.7
    else if (20 <=? value) && (value <? 30) || (90 <? value) && (value <=? 100) then 0.5
    else 0.3
  else if String.eqb metric_name "RMS_IQR" then
    if (8 <=? value) && (value <=? 15) then 1.0
    else if (6 <=? value) && (value <? 8) || (15 <? value) && (value <=? 18) then 0.7
    else if (5 <=? value) && (value <? 6) || (18 <? value) && (value <=? 20) then 0.5
    else 0.3
  else 0.5.

Definition level_from_score_new (s : Q) : string :=
  if s >=? 0.75 then "Advanced"
  else if s >=? 0.50 then "Intermediate"
  else if s >=? 0.30 then "Basic"
  else "Below Basic".

(** ** Effects: external calls, printing, exceptions *)

Inductive exn : Type :=
| ExternalError (msg : string)        (* whatever a collaborator raised *)
| UnboundLocalError (name : string).  (* a local read before assignment *)

Definition exn_str (e : exn) : string :=
  match e with
  | ExternalError msg => msg
  | UnboundLocalError name =>
      ("local variable '" ++ name ++ "' referenced before assignment")%string
  end.

Inductive event : Type :=
| Call (callee : string)
| Print (line : string).

(** A computation leaves a trace and either raises or returns. *)
Definition M (A : Type) : Type := (list event * (exn + A))%type.

Definition ret {A} (a : A) : M A := ([], inr a).
Definition raise {A} (e : exn) : M A := ([], inl e).

Definition bind {A B} (m : M A) (k : A -> M B) : M B :=
  match m with
  | (tr, inl e) => (tr, inl e)
  | (tr, inr a) => let '(tr', r) := k a in (tr ++ tr', r)
  end.

(** [try: body / except Exception as e: handler] *)
Definition try_except {A} (body : M A) (handler : exn -> M A) : M A :=
  match body with
  | (tr, inl e) => let '(tr', r) := handler e in (tr ++ tr', r)
  | (tr, inr a) => (tr, inr a)
  end.

Definition print (line : string) : M unit := ([Print line], inr tt).

(** A call that leaves the repository, with the outcome the world gives. *)
Definition external {A} (callee : string) (outcome : exn + A) : M A :=
  ([Call callee], outcome).

(** Reading a local variable that a [try] block may have left unbound. *)
Definition read_local {A} (name : string) (v : option A) : M A :=
  match v with
  | Some a => ret a
  | None => raise (UnboundLocalError name)
  end.

Notation "x <- m ;; k" := (bind m (fun x => k))
  (at level 61, m at next level, right associativity).
Notation "' p <- m ;; k" := (bind m (fun x => let 'p := x in k))
  (at level 61, p pattern, m at next level, right associativity).
Notation "m ;;; k" := (bind m (fun _ => k))
  (at level 61, right associativity).

(** What the collaborators answer for the audio file at hand. *)
Record Env : Type := mkEnv {
  soundfile_duration : exn + Q;         (* frames / samplerate of [sf.info] *)
  pyannote_timeline : exn + list seg;   (* [pipeline(...).get_timeline().support()] *)
  whisper_words : exn + list Word;      (* every [segment.words] entry, in order *)
  librosa_prosody : exn + (Q * Q)       (* [prosody_iqrs(path)] *)
}.

Section Pipeline.

Variable np_sqrt : Q -> Q.
Variable np_arange_len : Q -> Q -> Q -> nat.
Variable env : Env.

Definition duration_from_path (path : string) : M Q :=
  external "soundfile.info" (soundfile_duration env).

Definition run_pyannote_vad (path vad_model : string) (use_auth_token : option string)
  : M (list seg) :=
  segments <- external "pyannote.Pipeline" (pyannote_timeline env) ;;
  ret (merge_timeline segments).

Definition run_whisperx_words (path device compute_type model_size : string)
  : M (list Word) :=
  raw <- external "WhisperModel.transcribe" (whisper_words env) ;;
  ret (collect_words raw).

Definition prosody_iqrs (path : string) : M (Q * Q) :=
  external "librosa" (librosa_prosody env).

(** ** The scoring evaluation ([process_one] of the backend, lines 410-509) *)

Record ScoreResult : Type := mkScoreResult {
  Fluency : Q;
  Level : string;
  Timing_Score : Q;
  Prosody_Score : option Q;
  N_words : nat;
  Duration : Q;
  SR : Q; AR : Q; PR : Q; LPF : Q; MLFR : Q; RateSD : Q;
  F0_IQR : Q; RMS_IQR : Q
}.

(** The two shapes of dictionary the backend returns. *)
Inductive result_dict : Type :=
| InvalidAudio (fluency : Q) (level error : string)
| Scored (r : ScoreResult).

Definition dict_Fluency (d : result_dict) : Q :=
  match d with InvalidAudio f _ _ => f | Scored r => Fluency r end.

Definition dict_Level (d : result_dict) : string :=
  match d with InvalidAudio _ l _ => l | Scored r => Level r end.

Record Features : Type := mkFeatures {
  f_SR : Q; f_AR : Q; f_PR : Q; f_LPF : Q; f_MLFR : Q; f_RateSD : Q;
  f_F0_IQR : Q; f_RMS_IQR : Q
}.

Definition timing_score (feats : Features) : Q :=
  0.25 * score_metric (f_SR feats) "SR"
  + 0.20 * score_metric (f_AR feats) "AR"
  + 0.15 * score_metric (f_PR feats) "PR"
  + 0.20 * score_metric (f_MLFR feats) "MLFR"
  + 0.10 * score_metric (f_LPF feats) "LPF"
  + 0.10 * score_metric (f_RateSD feats) "RateSD".

Definition prosody_score (feats : Features) : Q :=
  0.5 * score_metric (f_F0_IQR feats) "F0_IQR"
  + 0.5 * score_metric (f_RMS_IQR feats) "RMS_IQR".

(** Lines 471-509: from the feature dictionary to the returned one. *)
Definition scoring_stage (feats : Features) (use_prosody : bool)
    (n_words : nat) (total : Q) : ScoreResult :=
  let timing := timing_score feats in
  let fluency_score :=
    if use_prosody then 0.70 * timing + 0.30 * prosody_score feats else timing in
  mkScoreResult fluency_score (level_from_score_new fluency_score) timing
    (if use_prosody then Some (prosody_score feats) else None)
    n_words total
    (f_SR feats) (f_AR feats) (f_PR feats) (f_LPF feats) (f_MLFR feats)
    (f_RateSD feats) (f_F0_IQR feats) (f_RMS_IQR feats).

Definition process_one (path vad_model : string) (hf_token : option string)
    (device compute_type asr_model : string) (use_prosody : bool)
    (long_pause_sec mlfr_pause_sec : Q) : M result_dict :=
  total <- duration_from_path path ;;
  if total =? 0 then
    ret (InvalidAudio 0.0 "Below Basic" "Audio file is empty or invalid.")
  else
    (* VAD: the locals [silences], [t_speech], [pr] after the try block *)
    '(silences, t_speech, pr) <-
      try_except
        (speech <- run_pyannote_vad path vad_model hf_token ;;
         let silences := silences_from_speech speech total in
         let t_speech := sum_lengths speech in
         let pr := if total <=? 1e-6 then 0 else (total - t_speech) / total in
         ret (Some silences, t_speech, pr))
        (fun e =>
           print ("VAD failed for " ++ path ++ ": " ++ exn_str e) ;;;
           ret (None, total, 0.0)) ;;
    (* ASR + alignment *)
    '(n_words, words_clean) <-
      try_except
        (words <- run_whisperx_words path device compute_type asr_model ;;
         let words_clean := filter has_alpha words in
         ret (List.length words_clean, words_clean))
        (fun e =>
           print ("ASR failed for " ++ path ++ ": " ++ exn_str e) ;;;
           ret (0%nat, [])) ;;
    (* Feature calculation *)
    let sr_wpm := words_per_min n_words total in
    let ar_wpm := if t_speech >? 0 then words_per_min n_words t_speech else 0.0 in
    lpf <- (if (0 <? n_words)%nat
            then sil <- read_local "silences" silences ;;
                 ret (long_pause_freq sil long_pause_sec total)
            else ret 0.0) ;;
    let mlfr_val := mlfr words_clean mlfr_pause_sec in
    let rsd := rate_stability np_sqrt np_arange_len words_clean 5.0 in
    '(f0_iqr, rms_iqr) <-
      (if use_prosody
       then try_except (prosody_iqrs path)
              (fun e =>
                 print ("Prosody failed for " ++ path ++ ": " ++ exn_str e) ;;;
                 ret (0.0, 0.0))
       else ret (0.0, 0.0)) ;;
    let feats := mkFeatures sr_wpm ar_wpm pr lpf mlfr_val rsd f0_iqr rms_iqr in
    ret (Scored (scoring_stage feats use_prosody n_words total)).

(** ** The interface function ([evaluate_fluency], lines 516-576) *)

Definition mock_result : ScoreResult :=
  mkScoreResult 0.78 "Advanced" 0.85 (Some 0.65) 55 25.4
    129.9 165.5 0.21 2.3 8.5 35.0 55.0 10.5.

Definition evaluate_fluency (audio_path vad_model : string)
    (hf_token : option string) (asr_model : string) (use_prosody : bool)
    (long_pause_sec mlfr_pause_sec : Q) : M result_dict :=
  print "[MOCK MODE]: Audio Fluency Evaluation: Returning fixed fluency results immediately." ;;;
  ret (Scored mock_result).

End Pipeline.

(** ** The feature extraction of the prototype ([process_one] of
    [src/fluency.py], lines 228-272) *)

Module Prototype.

(** The dictionary the prototype returns: the features, not yet scored. *)
Record FeatureRow : Type := mkFeatureRow {
  path : string;
  Duration : Q;
  N_words : nat;
  SR : Q; AR : Q; PR : Q; LPF : Q; MLFR : Q; RateSD : Q;
  F0_IQR : Q; RMS_IQR : Q
}.

Definition process_one (np_sqrt : Q -> Q)
    (np_arange_len : Q -> Q -> Q -> nat) (env : Env)
    (path vad_model : string) (hf_token : option string)
    (device compute_type asr_model : string) (use_prosody : bool)
    (long_pause_sec mlfr_pause_sec : Q) : M FeatureRow :=
  total <- duration_from_path env path ;;
  (* VAD *)
  speech <- run_pyannote_vad env path vad_model hf_token ;;
  let silences := silences_from_speech speech total in
  let t_speech := sum_lengths speech in
  let pr := if total <=? 1e-6 then 0 else (total - t_speech) / total in
  (* ASR + alignment *)
  words <- run_whisperx_words env path device compute_type asr_model ;;
  let words_clean := filter has_alpha words in
  let n_words := List.length words_clean in
  let sr_wpm := words_per_min n_words total in
  let ar_wpm := if t_speech >? 0 then words_per_min n_words t_speech else 0.0 in
  let lpf := long_pause_freq silences long_pause_sec total in
  let mlfr_val := mlfr words_clean mlfr_pause_sec in
  let rsd := rate_stability np_sqrt np_arange_len words_clean 5.0 in
  '(f0_iqr, rms_iqr) <-
    (if use_prosody then prosody_iqrs env path else ret (0.0, 0.0)) ;;
  ret (mkFeatureRow path total n_words sr_wpm ar_wpm pr lpf mlfr_val rsd
         f0_iqr rms_iqr).

End Prototype.

(** ** The tutoring client that calls the evaluation
    ([backend/utils/api_client.py]) *)

Module ApiClient.

Local Open Scope string_scope.

Definition nl : string := String "010"%char EmptyString.
Definition dquote : string := String (ascii_of_nat 34) EmptyString.

(** One entry of the user message. *)
Inductive content : Type :=
| TextPart (text : string)
| ImageUrl (url : string).

Inductive client_exn : Type :=
| ValueError (msg : string)
| Upstream (e : exn).          (* raised by the OpenAI client *)

Section Client.

(** An uploaded audio stream and an uploaded image file. *)
Variable Audio File : Type.

(** [image_list] entries: [{"file": ..., "type": ...}]. *)
Record ImageItem : Type := mkImageItem { item_file : File; item_type : string }.

(** What is sent out and printed, in order. *)
Inductive client_event : Type :=
| Printed (line : string)
| Transcribe (audio : Audio)
| Chat (system_prompt : string) (user_content : list content).

Definition C (A : Type) : Type := (list client_event * (client_exn + A))%type.

Definition cret {A} (a : A) : C A := ([], inr a).
Definition craise {A} (e : client_exn) : C A := ([], inl e).
Definition cprint (line : string) : C unit := ([Printed line], inr tt).

Definition cbind {A B} (m : C A) (k : A -> C B) : C B :=
  match m with
  | (tr, inl e) => (tr, inl e)
  | (tr, inr a) => let '(tr', r) := k a in ((tr ++ tr')%list, r)
  end.

(** Python's formatting of a float and of the result dictionary inside an
    f-string, [str.lower], and the part of [parse_ai_output] after its
    first print. *)
Variable py_str_float : Q -> string.
Variable py_str_result : result_dict -> string.
Variable py_lower : string -> string.
Variable parse_sections : string -> list (string * string).

(** [base64.b64encode(image_file.read()).decode("utf-8")] *)
Variable encode_image_to_base64 : File -> string.

(** The answers of the OpenAI service. *)
Variable transcriptions_create : Audio -> exn + string.
Variable chat_completions_create : string -> list content -> exn + string.

(** [fluency_test.evaluate_fluency], the copy the client imports. *)
Definition evaluate_fluency (audio_path : Audio) : C result_dict :=
  cbind (cprint "[MOCK MODE]: Audio Fluency Evaluation: Returning fixed fluency results immediately.")
        (fun _ => cret (Scored mock_result)).

Definition build_fluency_context (fluency_result : option result_dict) : string :=
  match fluency_result with
  | None => ""
  | Some d =>
      nl ++ "The user's spoken fluency was automatically evaluated as follows:" ++ nl
      ++ "- Fluency Score: " ++ py_str_float (dict_Fluency d) ++ nl
      ++ "- Fluency Level: " ++ dict_Level d ++ nl
      ++ "You should incorporate this numerical information into your feedback."
  end.

Definition build_system_prompt (image_list : list ImageItem) (fluency_context : string)
  : string :=
  let image_context :=
    match image_list with
    | _ :: _ => "Refer to the attached image(s) for visual context (camera shots or sketches)."
    | [] => ""
    end in
  "You are an English-speaking coach helping ESL learners express themselves naturally and fluently." ++ nl
  ++ "The learner provides either text or speech (with a fluency evaluation). "
  ++ image_context ++ nl ++ nl
  ++ "Please respond in **five short sections** with clear labels:" ++ nl ++ nl
  ++ "1. **Fluency & Understanding** — Summarize what the learner said and show their fluency results:" ++ nl
  ++ (if String.eqb fluency_context "" then "(No fluency data provided)" else fluency_context)
  ++ nl ++ nl
  ++ "2. **Better Expression** — Give your improved, natural English version." ++ nl
  ++ "3. **Feedback** — Briefly list what was good and what can be improved." ++ nl
  ++ "4. **Key Phrases** — Highlight 2–3 useful words or expressions from your version." ++ nl
  ++ "5. **Speaking Tip** — One short, practical tip to improve pronunciation, rhythm, or clarity."
  ++ nl ++ nl
  ++ "Keep your tone encouraging and concise — like a friendly tutor giving actionable feedback.".

Definition image_parts (item : ImageItem) : list content :=
  [TextPart ("The following image is a " ++ py_lower (item_type item) ++ ":");
   ImageUrl ("data:image/png;base64," ++ encode_image_to_base64 (item_file item))].

Definition build_user_content (transcript typed_text : string)
    (image_list : list ImageItem) : list content :=
  let user_content := [] in
  let user_content :=
    if String.eqb transcript "" then user_content
    else (user_content
          ++ [TextPart ("User's speech transcript: " ++ dquote ++ transcript ++ dquote)])%list in
  let user_content :=
    if String.eqb typed_text "" then user_content
    else (user_content
          ++ [TextPart ("User's typed text: " ++ dquote ++ typed_text ++ dquote)])%list in
  let user_content :=
    if String.eqb transcript "" && String.eqb typed_text ""
    then (user_content
          ++ [TextPart "The user did not provide any text. Please describe the situation based on the image(s)."])%list
    else user_content in
  (user_content ++ flat_map image_parts image_list)%list.

(** [parse_ai_output]: its guard and its print; the section parsing
    itself is [parse_sections]. *)
Definition parse_ai_output (text : string) : C (list (string * string)) :=
  if String.eqb text "" then cret []
  else cbind (cprint (nl ++ "The raw OpenAI output is:" ++ nl ++ text ++ nl))
             (fun _ => cret (parse_sections text)).

Definition speech2text (audio_file : Audio) : C string :=
  ([Transcribe audio_file],
   match transcriptions_create audio_file with
   | inl e => inl (Upstream e)
   | inr t => inr t
   end).

Definition refine_expression (transcript typed_text : string)
    (image_list : list ImageItem) (fluency_result : option result_dict)
  : C (list (string * string)) :=
  let fluency_context := build_fluency_context fluency_result in
  let system_prompt := build_system_prompt image_list fluency_context in
  let user_content := build_user_content transcript typed_text image_list in
  cbind ([Chat system_prompt user_content],
         match chat_completions_create system_prompt user_content with
         | inl e => inl (Upstream e)
         | inr t => inr t
         end)
        parse_ai_output.

(** [OpenAIClient.process]; the returned dictionary has the single key
    ["output"]. *)
Definition process (user_text : string) (image_list : list ImageItem)
    (user_audio : option Audio) : C (list (string * string)) :=
  cbind
    (match user_audio with
     | Some audio =>
         cbind (speech2text audio) (fun user_text =>
         cbind (cprint ("[INFO] Transcription result: " ++ user_text)) (fun _ =>
         cbind (evaluate_fluency audio) (fun fluency_result =>
         cbind (cprint ("[INFO] Fluency evaluation: " ++ py_str_result fluency_result))
               (fun _ => cret (user_text, Some fluency_result)))))
     | None =>
         if String.eqb user_text ""
         then craise (ValueError "[ERROR] Either audio input or user text is required.")
         else cret (user_text, None)
     end)
    (fun '(user_text, fluency_result) =>
       refine_expression user_text user_text image_list fluency_result).

End Client.

(** [get_ai_client]: the one provider there is. *)
Definition get_ai_client (provider_name : string) : client_exn + unit :=
  if String.eqb provider_name "openai" then inr tt
  else inl (ValueError ("Unsupported provider: " ++ provider_name)).

End ApiClient.

(** * Auxiliary notions used by the statements *)

(** ** Merging *)

(** The merge pass seen from its current last segment [cur]: what
    [merged] ends with once the remaining segments are consumed. *)
Fixpoint merge_from (cur : seg) (rest : list seg) : list seg :=
  match rest with
  | [] => [cur]
  | x :: r =>
      if fst x - snd cur <? 0.15
      then merge_from (fst cur, py_max (snd cur) (snd x)) r
      else cur :: merge_from x r
  end.

(** No segment starts less than 150 ms after its predecessor ends. *)
Fixpoint separated (l : list seg) : Prop :=
  match l with
  | x :: r =>
      match r with
      | y :: _ => (fst y - snd x <? 0.15) = false
      | [] => True
      end /\ separated r
  | [] => True
  end.

(** ** Order of the levels *)

Definition level_rank (level : string) : nat :=
  if String.eqb level "Advanced" then 3
  else if String.eqb level "Intermediate" then 2
  else if String.eqb level "Basic" then 1
  else 0.

(** ** Tiling of the clip by speech and silence *)

(** The instant [t] lies in the half-open interval [[start, end)]. *)
Definition covers (t : Q) (x : seg) : bool := (fst x <=? t) && (t <? snd x).

(** How many intervals of [l] contain the instant [t]. *)
Definition cover_count (t : Q) (l : list seg) : nat :=
  List.length (filter (covers t) l).

(** Every interval is well formed and lies in [[0, T]]. *)
Definition contained (T : Q) (l : list seg) : Prop :=
  Forall (fun x => 0 <= fst x /\ fst x <= snd x /\ snd x <= T) l.

(** Listed in time order without overlap: each interval ends before the
    next one starts. *)
Fixpoint sorted_disjoint (l : list seg) : Prop :=
  match l with
  | x :: r =>
      match r with
      | y :: _ => snd x <= fst y
      | [] => True
      end /\ sorted_disjoint r
  | [] => True
  end.

(** ** Long pauses, in the words of the feature's description *)

(** The number of silence intervals whose length is at least [min_long],
    divided by the duration in minutes; 0 for a duration of at most one
    microsecond. *)
Definition long_pause_rate (silences : list seg) (min_long total : Q) : Q :=
  if total <=? 1e-6 then 0
  else Qnat (List.length (filter (fun x => min_long <=? snd x - fst x) silences))
       / (total / 60).

(** ** Sample runs *)

(** A square root exact to three decimals, to run the model on examples. *)
Definition sqrt_milli (x : Q) : Q :=
  inject_Z (Z.sqrt (Qfloor (x * 1000000))) / 1000.

(** The number of values of [np.arange] when the quotient is taken
    exactly, to run the model on examples: numpy has the same number
    wherever the quotient is not within rounding error of an integer. *)
Definition arange_len_exact (lo hi step : Q) : nat :=
  Z.to_nat (Qceiling ((hi - lo) / step)).

(** The words the evaluation counts: what the recognizer gave, cleaned,
    or nothing when the recognizer raised. *)
Definition counted_words (env : Env) : list Word :=
  match whisper_words env with
  | inr raw => filter has_alpha (collect_words raw)
  | inl _ => []
  end.

(** One second of audio, the detector refuses the token, the recognizer
    hears one word. *)
Definition env_vad_down : Env :=
  mkEnv (inr 1.0) (inl (ExternalError "401 Unauthorized"))
        (inr [mkWord " hello" 0.0 0.5]) (inr (0.0, 0.0)).

(** A file with no frames. *)
Definition env_empty_audio : Env :=
  mkEnv (inr 0) (inr []) (inr []) (inr (0.0, 0.0)).

(** One minute in which the detector finds no speech and the recognizer
    no word. *)
Definition env_silent_minute : Env :=
  mkEnv (inr 60) (inr []) (inr []) (inr (0.0, 0.0)).

(** Twenty seconds with two stretches of speech, a long pause between
    them and three recognized words. *)
Definition env_three_words : Env :=
  mkEnv (inr 20) (inr [(0.5, 2.0); (2.1, 3.0); (6.0, 9.0)])
        (inr [mkWord " well" 0.6 1.0; mkWord " I" 1.2 1.4; mkWord "think " 6.1 6.8;
              mkWord " ..." 7.0 7.2])
        (inl (ExternalError "pyin: empty signal")).

(** What the evaluation of the twenty-second clip leaves and returns,
    with prosody requested. *)
Definition three_words_trace : list event :=
  Eval vm_compute in
    fst (process_one sqrt_milli arange_len_exact env_three_words "clip.wav"
           "pyannote/voice-activity-detection" None "cpu" "int8" "small.en"
           true 0.7 0.25).

Definition three_words_result : result_dict :=
  Eval vm_compute in
    match snd (process_one sqrt_milli arange_len_exact env_three_words "clip.wav"
                 "pyannote/voice-activity-detection" None "cpu" "int8" "small.en"
                 true 0.7 0.25) with
    | inr d => d
    | inl _ => InvalidAudio 0 "" ""
    end.

(** ** Fluent runs, in the words of the feature's description *)

(** A property of every pair of neighbours of a word list. *)
Fixpoint consecutive (P : Word -> Word -> Prop) (l : list Word) : Prop :=
  match l with
  | a :: r =>
      match r with
      | b :: _ => P a b
      | [] => True
      end /\ consecutive P r
  | [] => True
  end.

(** The pause between two neighbours as [mlfr] measures it: the next
    start minus the previous end, never below zero. *)
Definition pause (prev next : Word) : Q := py_max 0 (start next - end_ prev).

(** Cutting a time-ordered word list into runs: a new run starts at each
    word that follows a pause of at least [pause_thr]. *)
Fixpoint split_runs (pause_thr : Q) (prev : Word) (rest : list Word)
  : list (list Word) :=
  match rest with
  | [] => [[prev]]
  | w :: r =>
      if pause prev w >=? pause_thr
      then [prev] :: split_runs pause_thr w r
      else match split_runs pause_thr w r with
           | run :: runs => (prev :: run) :: runs
           | [] => [[prev]]
           end
  end.

Definition fluent_runs (pause_thr : Q) (ws : list Word) : list (list Word) :=
  match ws with
  | [] => []
  | w :: r => split_runs pause_thr w r
  end.

(** Two words that overlap in time. *)
Definition overlapping_pair : list Word :=
  [mkWord "so" 0 2; mkWord "yes" 1 3].

(** Three words spoken in close succession. *)
Definition close_triple : list Word :=
  [mkWord "I" 0.0 0.3; mkWord "think" 0.4 0.9; mkWord "so" 1.0 1.2].

(** ** Windowed rates, in the words of the feature's description *)

(** Words listed in time order, each ending before the next one starts. *)
Definition in_time_order (l : list Word) : Prop :=
  Forall (fun w => start w <= end_ w) l
  /\ consecutive (fun a b => end_ a <= start b) l.

(** The word meets the window [[s, e)]: it starts before the window ends
    and ends after the window starts. *)
Definition overlaps (s e : Q) (w : Word) : bool :=
  (start w <? e) && (s <? end_ w).

(** Window number [b] of width [window_sec] counted from [t0]. *)
Definition window (t0 window_sec : Q) (b : nat) : Q * Q :=
  (t0 + Qnat b * window_sec, t0 + Qnat (S b) * window_sec).

(** Words per minute of the words that meet a window. *)
Definition rate_in (words : list Word) (window_sec : Q) (win : Q * Q) : Q :=
  Qnat (List.length (filter (overlaps (fst win) (snd win)) words))
  / (window_sec / 60).

(** The rates of the first [k] windows from [t0]. *)
Definition exact_rates (words : list Word) (window_sec t0 : Q) (k : nat) : list Q :=
  map (fun b => rate_in words window_sec (window t0 window_sec b)) (seq 0 k).

(** How many windows [np.arange(t0, t1 + window_sec, window_sec)] leaves:
    one less than it has values. *)
Definition window_count (np_arange_len : Q -> Q -> Q -> nat)
    (t0 t1 window_sec : Q) : nat :=
  Nat.sub (np_arange_len t0 (t1 + window_sec) window_sec) 1.

(** Windows that follow each other in time. *)
Fixpoint successive (wins : list (Q * Q)) : Prop :=
  match wins with
  | x :: r =>
      fst x < snd x
      /\ match r with
         | y :: _ => snd x <= fst y
         | [] => True
         end
      /\ successive r
  | [] => True
  end.



(** Ten words of one second each, from 1.1 s to 11.1 s. *)
Definition steady_clip : list Word :=
  [mkWord "one" 1.1 2.1; mkWord "two" 2.1 3.1; mkWord "three" 3.1 4.1;
   mkWord "four" 4.1 5.1; mkWord "five" 5.1 6.1; mkWord "six" 6.1 7.1;
   mkWord "seven" 7.1 8.1; mkWord "eight" 8.1 9.1; mkWord "nine" 9.1 10.1;
   mkWord "ten" 10.1 11.1].

(** ** Order of segments *)

(** Every segment starts no earlier than the ones listed before it. *)
Fixpoint sorted_by_start (l : list seg) : Prop :=
  match l with
  | x :: r => Forall (fun y => fst x <= fst y) r /\ sorted_by_start r
  | [] => True
  end.

(** Each segment starts strictly after the one before it. *)
Fixpoint increasing_starts (l : list seg) : Prop :=
  match l with
  | x :: r =>
      match r with
      | y :: _ => fst x < fst y
      | [] => True
      end /\ increasing_starts r
  | [] => True
  end.

(** The segment [z] lies inside the segment [y]. *)
Definition inside (z y : seg) : Prop := fst y <= fst z /\ snd z <= snd y.

(** ** The evaluation as a function of what the collaborators answer *)

(** The prosody pair the evaluation ends with. *)
Definition prosody_pair (env : Env) (use_prosody : bool) : Q * Q :=
  if use_prosody
  then match librosa_prosody env with
       | inr p => p
       | inl _ => (0.0, 0.0)
       end
  else (0.0, 0.0).

(** The features of an evaluation of a clip of length [total] whose
    detector answered [timeline]. *)
Definition features_with_vad (np_sqrt : Q -> Q)
    (np_arange_len : Q -> Q -> Q -> nat) (env : Env) (use_prosody : bool)
    (long_pause_sec mlfr_pause_sec total : Q) (timeline : list seg) : Features :=
  let speech := merge_timeline timeline in
  let t_speech := sum_lengths speech in
  let words := counted_words env in
  let n := List.length words in
  mkFeatures
    (words_per_min n total)
    (if 0 <? t_speech then words_per_min n t_speech else 0.0)
    (if total <=? 1e-6 then 0 else (total - t_speech) / total)
    (if (0 <? n)%nat
     then long_pause_freq (silences_from_speech speech total) long_pause_sec total
     else 0.0)
    (mlfr words mlfr_pause_sec)
    (rate_stability np_sqrt np_arange_len words 5.0)
    (fst (prosody_pair env use_prosody))
    (snd (prosody_pair env use_prosody)).

(** The features of an evaluation whose detector raised and which
    counted no word. *)
Definition features_without_vad (np_sqrt : Q -> Q)
    (np_arange_len : Q -> Q -> Q -> nat) (env : Env) (use_prosody : bool)
    (mlfr_pause_sec total : Q) : Features :=
  mkFeatures
    (words_per_min 0 total)
    (if 0 <? total then words_per_min 0 total else 0.0)
    0.0 0.0
    (mlfr [] mlfr_pause_sec)
    (rate_stability np_sqrt np_arange_len [] 5.0)
    (fst (prosody_pair env use_prosody))
    (snd (prosody_pair env use_prosody)).

(** How an evaluation ends. *)
Definition evaluation_outcome (np_sqrt : Q -> Q)
    (np_arange_len : Q -> Q -> Q -> nat) (env : Env) (use_prosody : bool)
    (long_pause_sec mlfr_pause_sec : Q) : exn + result_dict :=
  match soundfile_duration env with
  | inl e => inl e
  | inr total =>
      if total =? 0
      then inr (InvalidAudio 0.0 "Below Basic" "Audio file is empty or invalid.")
      else
        match pyannote_timeline env with
        | inr timeline =>
            inr (Scored (scoring_stage
                           (features_with_vad np_sqrt np_arange_len env use_prosody
                              long_pause_sec mlfr_pause_sec total timeline)
                           use_prosody (List.length (counted_words env)) total))
        | inl _ =>
            match counted_words env with
            | [] =>
                inr (Scored (scoring_stage
                               (features_without_vad np_sqrt np_arange_len env use_prosody
                                  mlfr_pause_sec total)
                               use_prosody 0 total))
            | _ :: _ => inl (UnboundLocalError "silences")
            end
        end
  end.

Definition silent_minute_row : Prototype.FeatureRow :=
  Eval vm_compute in
    match snd (Prototype.process_one sqrt_milli arange_len_exact env_silent_minute "quiet.wav"
                 "pyannote/voice-activity-detection" None "cpu" "int8" "small.en"
                 false 0.7 0.25) with
    | inr row => row
    | inl _ => Prototype.mkFeatureRow "" 0 0 0 0 0 0 0 0 0 0
    end.

Definition three_words_row : Prototype.FeatureRow :=
  Eval vm_compute in
    match snd (Prototype.process_one sqrt_milli arange_len_exact
                 (mkEnv (inr 20) (inr [(0.5, 2.0); (2.1, 3.0); (6.0, 9.0)])
                        (whisper_words env_three_words) (inr (0.0, 0.0)))
                 "clip.wav" "pyannote/voice-activity-detection" None "cpu" "int8"
                 "small.en" false 0.7 0.25) with
    | inr row => row
    | inl _ => Prototype.mkFeatureRow "" 0 0 0 0 0 0 0 0 0 0
    end.

(** The collaborators an evaluation called, in order. *)
Definition calls_of (tr : list event) : list string :=
  flat_map (fun ev => match ev with Call callee => [callee] | Print _ => [] end) tr.

(** * Proofs *)

Lemma Qleb_le (x y : Q) : (x <=? y) = true <-> x <= y.
Proof. apply Qle_bool_iff. Qed.

Lemma Qleb_gt (x y : Q) : (x <=? y) = false <-> y < x.
Proof.
  unfold Qleb. split; intro H.
  - apply Qnot_le_lt. intro L. apply Qle_bool_iff in L. congruence.
  - destruct (Qle_bool x y) eqn:E; [|reflexivity].
    apply Qle_bool_iff in E. lra.
Qed.

Lemma Qltb_lt (x y : Q) : (x <? y) = true <-> x < y.
Proof. unfold Qltb. rewrite negb_true_iff. apply Qleb_gt. Qed.

Lemma Qltb_ge (x y : Q) : (x <? y) = false <-> y <= x.
Proof. unfold Qltb. rewrite negb_false_iff. apply Qleb_le. Qed.

Lemma Qeqb_eq (x y : Q) : (x =? y) = true <-> x == y.
Proof. apply Qeq_bool_iff. Qed.

Lemma Qeqb_neq (x y : Q) : (x =? y) = false <-> ~ x == y.
Proof.
  split; intro H.
  - intro E. apply Qeq_bool_iff in E. congruence.
  - destruct (x =? y) eqn:E; [|reflexivity]. apply Qeq_bool_iff in E. tauto.
Qed.

(** Case analysis on every float test in sight, leaving the outcome as
    an arithmetic hypothesis. *)
Ltac qtest_hyps :=
  repeat match goal with
  | H : (_ <=? _) = true |- _ => apply Qleb_le in H
  | H : (_ <=? _) = false |- _ => apply Qleb_gt in H
  | H : (_ <? _) = true |- _ => apply Qltb_lt in H
  | H : (_ <? _) = false |- _ => apply Qltb_ge in H
  | H : (_ =? _) = true |- _ => apply Qeqb_eq in H
  | H : (_ =? _) = false |- _ => apply Qeqb_neq in H
  end.

Ltac qcases :=
  repeat match goal with
  | |- context [?a <=? ?b] => let E := fresh "E" in destruct (a <=? b) eqn:E
  | |- context [?a <? ?b] => let E := fresh "E" in destruct (a <? b) eqn:E
  | |- context [?a =? ?b] => let E := fresh "E" in destruct (a =? b) eqn:E
  end; qtest_hyps.

(** ** The 150 ms merge pass *)

Lemma merge_step_snoc (l : list seg) (y x : seg) :
  merge_step (l ++ [y]) x =
  if fst x - snd y <? 0.15
  then l ++ [(fst y, py_max (snd y) (snd x))]
  else (l ++ [y]) ++ [x].
Proof.
  unfold merge_step.
  destruct (l ++ [y]) as [|m0 tl0] eqn:E.
  - destruct l; discriminate.
  - rewrite <- E, last_last, removelast_last. reflexivity.
Qed.

Lemma fold_merge_snoc (rest : list seg) :
  forall (l : list seg) (y : seg),
    fold_left merge_step rest (l ++ [y]) = l ++ merge_from y rest.
Proof.
  induction rest as [|x r IH]; intros l y; simpl.
  - reflexivity.
  - rewrite merge_step_snoc.
    destruct (fst x - snd y <? 0.15).
    + apply IH.
    + rewrite IH, <- app_assoc. reflexivity.
Qed.

Lemma merge_pass_cons (x : seg) (r : list seg) :
  merge_pass (x :: r) = merge_from x r.
Proof.
  unfold merge_pass. simpl. apply (fold_merge_snoc r [] x).
Qed.

Lemma merge_from_head (rest : list seg) :
  forall cur, exists e r', merge_from cur rest = (fst cur, e) :: r'.
Proof.
  induction rest as [|x r IH]; intros [s e]; simpl.
  - eauto.
  - destruct (fst x - e <? 0.15).
    + destruct (IH (s, py_max e (snd x))) as (e' & r' & ->). simpl. eauto.
    + eauto.
Qed.

Lemma merge_from_separated (rest : list seg) :
  forall cur, separated (merge_from cur rest).
Proof.
  induction rest as [|x r IH]; intros cur; simpl.
  - auto.
  - destruct (fst x - snd cur <? 0.15) eqn:E.
    + apply IH.
    + specialize (IH x).
      destruct (merge_from_head r x) as (e' & r' & Hx).
      rewrite Hx in *. simpl. split; [exact E | exact IH].
Qed.

Lemma separated_merge_from (r : list seg) :
  forall x, separated (x :: r) -> merge_from x r = x :: r.
Proof.
  induction r as [|y r IH]; intros x [Hxy Hr]; simpl.
  - reflexivity.
  - rewrite Hxy, (IH y Hr). reflexivity.
Qed.

(** C4. The merge pass of [run_pyannote_vad] is idempotent: run on its
    own output it returns that output unchanged.  This holds for every
    list of segments, in particular for those sorted by start. *)
Theorem merge_pass_idempotent (segments : list seg) :
  merge_pass (merge_pass segments) = merge_pass segments.
Proof.
  destruct segments as [|x r]; [reflexivity|].
  rewrite merge_pass_cons.
  pose proof (merge_from_separated r x) as Hsep.
  destruct (merge_from_head r x) as (e & r' & Hx).
  rewrite Hx in *.
  rewrite merge_pass_cons. apply separated_merge_from, Hsep.
Qed.

Example merge_pass_closes_short_gap :
  merge_pass [(0, 1); (1.1, 2); (3, 4)] = [(0, 2); (3, 4)].
Proof. reflexivity. Qed.

Example merge_timeline_sorts_first :
  merge_timeline [(3, 4); (1.1, 2); (0, 1)] = [(0, 2); (3, 4)].
Proof. reflexivity. Qed.

Example silences_between_speech :
  silences_from_speech [(1, 2); (2.5, 4)] 6 = [(0, 1); (2, 2.5); (4, 6)].
Proof. reflexivity. Qed.

(** ** Silences complement speech *)

Lemma cover_count_app (t : Q) (a b : list seg) :
  cover_count t (a ++ b) = (cover_count t a + cover_count t b)%nat.
Proof. unfold cover_count. rewrite filter_app, length_app. reflexivity. Qed.

Lemma cover_count_cons (t : Q) (x : seg) (l : list seg) :
  cover_count t (x :: l) =
  ((if covers t x then 1 else 0) + cover_count t l)%nat.
Proof. unfold cover_count. simpl. destruct (covers t x); reflexivity. Qed.

Lemma last_cons_default {A} (l : list A) (y d d' : A) :
  last (y :: l) d = last (y :: l) d'.
Proof.
  revert y. induction l as [|z l IH]; intros y; [reflexivity|].
  change (last (z :: l) d = last (z :: l) d'). apply IH.
Qed.

Lemma Forall_last {A} (P : A -> Prop) (l : list A) (x : A) :
  Forall P (x :: l) -> P (last (x :: l) x).
Proof.
  revert x. induction l as [|y l IH]; intros x H.
  - inversion H; assumption.
  - change (P (last (y :: l) x)). rewrite (last_cons_default l y x y).
    apply IH. inversion H; assumption.
Qed.

(** From the start of the first interval to the end of the last one,
    the intervals and the gaps between them cover each instant once. *)
Lemma gaps_fill_chain (t : Q) (r : list seg) :
  forall x,
    Forall (fun y => fst y <= snd y) (x :: r) ->
    sorted_disjoint (x :: r) ->
    fst x <= snd (last (x :: r) x) /\
    (cover_count t (flat_map gap_between (combine (x :: r) r))
     + cover_count t (x :: r))%nat
    = if (fst x <=? t) && (t <? snd (last (x :: r) x)) then 1%nat else 0%nat.
Proof.
  induction r as [|y r IH]; intros x Hwf Hsd.
  - inversion Hwf as [|? ? Hx _]; subst. split; [exact Hx|].
    simpl. rewrite cover_count_cons. unfold cover_count, covers. simpl.
    destruct ((fst x <=? t) && (t <? snd x)); reflexivity.
  - inversion Hwf as [|? ? Hx Hwf']; subst.
    destruct Hsd as [Hxy Hsd'].
    destruct (IH y Hwf' Hsd') as [Hle Hcnt].
    change (last (x :: y :: r) x) with (last (y :: r) x).
    rewrite (last_cons_default r y x y).
    split; [lra|].
    change (combine (x :: y :: r) (y :: r)) with ((x, y) :: combine (y :: r) r).
    cbn [flat_map]. rewrite cover_count_app, (cover_count_cons t x (y :: r)).
    rewrite <- Nat.add_assoc, (Nat.add_assoc (cover_count t (flat_map _ _))).
    rewrite (Nat.add_comm (cover_count t (flat_map _ _))).
    rewrite <- (Nat.add_assoc _ (cover_count t (flat_map _ _))), Hcnt.
    set (L := snd (last (y :: r) y)) in *.
    destruct x as [sx ex], y as [sy ey]. unfold gap_between, covers. cbn [fst snd] in *.
    unfold cover_count.
    destruct (ex <? sy) eqn:G; cbn [filter List.length];
      unfold covers; cbn [fst snd];
      qcases; cbn; try reflexivity; exfalso; lra.
Qed.

Lemma contained_well_formed (T : Q) (l : list seg) :
  contained T l -> Forall (fun y => fst y <= snd y) l.
Proof.
  unfold contained. apply Forall_impl. intros a (_ & H & _). exact H.
Qed.

Lemma cover_count_single (t : Q) (x : seg) :
  cover_count t [x] = if covers t x then 1%nat else 0%nat.
Proof. unfold cover_count. simpl. destruct (covers t x); reflexivity. Qed.

(** C5. For a clip of length [T > 0] and speech intervals listed in time
    order, without overlap and inside [[0, T]], the silences derived by
    [silences_from_speech] together with the speech intervals tile
    [[0, T)]: every instant of the clip lies in exactly one of them (no
    gap, no overlap) and no instant outside the clip lies in any.  With
    no speech at all the silence list is the single interval [(0, T)]. *)
Theorem silences_complement_speech (T : Q) (speech : list seg) :
  0 < T ->
  contained T speech ->
  sorted_disjoint speech ->
  (forall t : Q,
      cover_count t (silences_from_speech speech T ++ speech)
      = if (0 <=? t) && (t <? T) then 1%nat else 0%nat)
  /\ silences_from_speech [] T = [(0, T)].
Proof.
  intros HT Hin Hsd. split; [|reflexivity].
  intros t. destruct speech as [|x r].
  - cbn [silences_from_speech app]. rewrite cover_count_single.
    unfold covers. cbn [fst snd]. reflexivity.
  - pose proof (contained_well_formed T _ Hin) as Hwf.
    destruct (gaps_fill_chain t r x Hwf Hsd) as [Hle Hcnt].
    pose proof (Forall_last _ r x Hin) as (_ & _ & HlastT).
    assert (H0 : 0 <= fst x) by (inversion Hin as [|? ? (H & _) _]; exact H).
    unfold silences_from_speech. cbn [tl].
    set (L := snd (last (x :: r) x)) in *.
    set (gaps := flat_map gap_between (combine (x :: r) r)) in *.
    set (a := cover_count t gaps) in *.
    set (b := cover_count t (x :: r)) in *.
    assert (Hgoal :
      forall lead trail : list seg,
        Nat.add (Nat.add (cover_count t lead) (cover_count t trail))
                (if (fst x <=? t) && (t <? L) then 1%nat else 0%nat)
        = (if (0 <=? t) && (t <? T) then 1%nat else 0%nat) ->
        cover_count t (((lead ++ gaps) ++ trail) ++ x :: r)
        = if (0 <=? t) && (t <? T) then 1%nat else 0%nat).
    { intros lead trail H. rewrite !cover_count_app. fold a b. lia. }
    destruct (0 <? fst x) eqn:Elead; destruct (L <? T) eqn:Etrail.
    + apply (Hgoal [(0, fst x)] [(L, T)]).
      rewrite !cover_count_single. unfold covers. cbn [fst snd].
      qcases; cbn; try reflexivity; exfalso; lra.
    + rewrite <- (app_nil_r (_ ++ gaps)). apply (Hgoal [(0, fst x)] []).
      rewrite !cover_count_single. unfold covers, cover_count. cbn [fst snd filter List.length].
      qcases; cbn; try reflexivity; exfalso; lra.
    + apply (Hgoal [] [(L, T)]).
      rewrite !cover_count_single. unfold covers, cover_count. cbn [fst snd filter List.length].
      qcases; cbn; try reflexivity; exfalso; lra.
    + rewrite <- (app_nil_r (_ ++ gaps)). apply (Hgoal [] []).
      unfold covers, cover_count. cbn [fst snd filter List.length].
      qcases; cbn; try reflexivity; exfalso; lra.
Qed.

(** A clip of six seconds with speech on [[1, 2)] and [[2.5, 4)]. *)
Lemma silences_complement_speech_witness :
  (forall t : Q,
      cover_count t (silences_from_speech [(1, 2); (2.5, 4)] 6 ++ [(1, 2); (2.5, 4)])
      = if (0 <=? t) && (t <? 6) then 1%nat else 0%nat)
  /\ silences_from_speech [] 6 = [(0, 6)].
Proof.
  apply (silences_complement_speech 6 [(1, 2); (2.5, 4)]).
  - reflexivity.
  - repeat constructor; cbn; discriminate.
  - cbn. repeat split; discriminate.
Defined.

(** ** Levels *)

(** X27. The level never goes down when the score goes up. *)
Lemma level_from_score_new_monotone (s1 s2 : Q) :
  s1 <= s2 ->
  (level_rank (level_from_score_new s1) <= level_rank (level_from_score_new s2))%nat.
Proof.
  intros H. unfold level_from_score_new.
  destruct (0.75 <=? s1) eqn:A1; destruct (0.75 <=? s2) eqn:A2;
    destruct (0.50 <=? s1) eqn:B1; destruct (0.50 <=? s2) eqn:B2;
    destruct (0.30 <=? s1) eqn:C1; destruct (0.30 <=? s2) eqn:C2;
    qtest_hyps; cbn; try lia; exfalso; lra.
Qed.

(** C9. [level_from_score_new] cuts the scores at 0.75, 0.50 and 0.30:
    a score gets "Advanced" exactly when it is at least 0.75,
    "Intermediate" exactly when it lies in [[0.50, 0.75)], "Basic"
    exactly when it lies in [[0.30, 0.50)] and "Below Basic" exactly when
    it is below 0.30; so 0.75 is "Advanced", 0.74999 is "Intermediate"
    and 0.0 is "Below Basic". *)
Theorem level_from_score_new_thresholds (s : Q) :
  (level_from_score_new s = "Advanced"%string <-> 0.75 <= s)
  /\ (level_from_score_new s = "Intermediate"%string <-> 0.50 <= s < 0.75)
  /\ (level_from_score_new s = "Basic"%string <-> 0.30 <= s < 0.50)
  /\ (level_from_score_new s = "Below Basic"%string <-> s < 0.30)
  /\ level_from_score_new 0.75 = "Advanced"%string
  /\ level_from_score_new 0.74999 = "Intermediate"%string
  /\ level_from_score_new 0.0 = "Below Basic"%string.
Proof.
  assert (E1 : level_from_score_new 0.75 = "Advanced"%string) by reflexivity.
  assert (E2 : level_from_score_new 0.74999 = "Intermediate"%string) by reflexivity.
  assert (E3 : level_from_score_new 0.0 = "Below Basic"%string) by reflexivity.
  unfold level_from_score_new in *.
  destruct (0.75 <=? s) eqn:A; [|destruct (0.50 <=? s) eqn:B;
                                  [|destruct (0.30 <=? s) eqn:C]];
    qtest_hyps; repeat split; intros; try assumption; try discriminate;
    try reflexivity;
    repeat match goal with H : _ /\ _ |- _ => destruct H end;
    try lra; exfalso; lra.
Qed.

(** ** Sub-scores and composites *)

Ltac score_cases :=
  unfold score_metric; cbn [String.eqb Ascii.eqb Bool.eqb];
  repeat match goal with
  | |- context [if ?b then _ else _] => destruct b
  end.

Lemma score_metric_timing (v : Q) :
  Forall (fun m => 0.1 <= score_metric v m <= 1.0) TIMING.
Proof.
  unfold TIMING. repeat constructor; score_cases; lra.
Qed.

Lemma score_metric_prosody (v : Q) :
  Forall (fun m => 0.3 <= score_metric v m <= 1.0) PROSODY.
Proof.
  unfold PROSODY. repeat constructor; score_cases; lra.
Qed.

Lemma score_metric_at (v : Q) (m : string) :
  In m TIMING -> 0.1 <= score_metric v m <= 1.0.
Proof.
  intros H. pose proof (score_metric_timing v) as F.
  rewrite Forall_forall in F. apply F, H.
Qed.

Lemma timing_score_bounds (feats : Features) :
  0.1 <= timing_score feats <= 1.0.
Proof.
  unfold timing_score.
  pose proof (score_metric_at (f_SR feats) "SR").
  pose proof (score_metric_at (f_AR feats) "AR").
  pose proof (score_metric_at (f_PR feats) "PR").
  pose proof (score_metric_at (f_MLFR feats) "MLFR").
  pose proof (score_metric_at (f_LPF feats) "LPF").
  pose proof (score_metric_at (f_RateSD feats) "RateSD").
  unfold TIMING in *. cbn [In] in *.
  repeat match goal with
  | H : _ -> _ <= _ <= _ |- _ =>
      let H' := fresh in
      assert (H' := H ltac:(tauto)); clear H; destruct H'
  end.
  split; lra.
Qed.

Lemma prosody_score_bounds (feats : Features) :
  0.3 <= prosody_score feats <= 1.0.
Proof.
  unfold prosody_score.
  pose proof (score_metric_prosody (f_F0_IQR feats)) as F0.
  pose proof (score_metric_prosody (f_RMS_IQR feats)) as F1.
  unfold PROSODY in *.
  inversion F0 as [|? ? [? ?] _]; subst.
  inversion F1 as [|? ? _ F1']; subst.
  inversion F1' as [|? ? [? ?] _]; subst.
  split; lra.
Qed.

Lemma scoring_stage_bounds (feats : Features) (use_prosody : bool)
    (n_words : nat) (total : Q) :
  let r := scoring_stage feats use_prosody n_words total in
  0.1 <= Timing_Score r <= 1.0 /\ 0.1 <= Fluency r <= 1.0.
Proof.
  pose proof (timing_score_bounds feats) as [? ?].
  pose proof (prosody_score_bounds feats) as [? ?].
  unfold scoring_stage. cbn. destruct use_prosody; repeat split; lra.
Qed.

(** ** The evaluation *)

Ltac run_process_one :=
  unfold process_one, duration_from_path, run_pyannote_vad, run_whisperx_words,
    prosody_iqrs, external, read_local, print, try_except, bind, ret, raise.

Lemma ones_sum_length {A} (l : list A) (n : nat) :
  fold_left Nat.add (map (fun _ => 1%nat) l) n = (n + List.length l)%nat.
Proof.
  revert n. induction l as [|a l IH]; intros n; simpl.
  - lia.
  - rewrite IH. lia.
Qed.

Lemma long_pause_freq_rate (silences : list seg) (min_long total : Q) :
  long_pause_freq silences min_long total = long_pause_rate silences min_long total.
Proof.
  unfold long_pause_freq, long_pause_rate. rewrite ones_sum_length. reflexivity.
Qed.

(** Whatever the collaborators do, an evaluation that returns has either
    stopped at the empty-audio test or gone through the scoring stage. *)
Lemma process_one_returns (np_sqrt : Q -> Q)
    (np_arange_len : Q -> Q -> Q -> nat) (env : Env)
    (path vad_model : string) (hf_token : option string)
    (device compute_type asr_model : string) (use_prosody : bool)
    (long_pause_sec mlfr_pause_sec : Q) (tr : list event) (d : result_dict) :
  process_one np_sqrt np_arange_len env path vad_model hf_token device compute_type asr_model
    use_prosody long_pause_sec mlfr_pause_sec = (tr, inr d) ->
  exists total, soundfile_duration env = inr total /\
    ((total == 0 /\
      d = InvalidAudio 0.0 "Below Basic" "Audio file is empty or invalid.")
     \/ (~ total == 0 /\
         exists feats n_words,
           d = Scored (scoring_stage feats use_prosody n_words total))).
Proof.
  destruct env as [dur vad asr pros]. run_process_one. cbn [soundfile_duration
    pyannote_timeline whisper_words librosa_prosody].
  destruct dur as [e|total]; [discriminate|].
  intros H. exists total. split; [reflexivity|].
  destruct (total =? 0) eqn:E0; qtest_hyps.
  - left. split; [exact E0|]. congruence.
  - right. split; [exact E0|].
    destruct vad as [ev|timeline]; destruct asr as [ea|raw];
      cbn [app fst snd List.length filter] in H;
      repeat match type of H with
      | context [(0 <? ?n)%nat] => destruct (0 <? n)%nat
      | context [if use_prosody then _ else _] => destruct use_prosody
      | context [match pros with _ => _ end] => destruct pros as [ep|[f0 rms]]
      end;
      try discriminate; inversion H; eauto.
Qed.

(** C10. [score_metric] gives each of the six timing features a
    sub-score between 0.1 and 1.0, whatever the value; so the
    [Timing_Score] of an evaluation that reached the scoring stage lies
    between 0.1 and 1.0, and an evaluation returns a [Fluency] of 0
    exactly when it stopped at the empty-audio test. *)
Theorem timing_scores_in_range (np_sqrt : Q -> Q)
    (np_arange_len : Q -> Q -> Q -> nat) (env : Env)
    (path vad_model : string) (hf_token : option string)
    (device compute_type asr_model : string) (use_prosody : bool)
    (long_pause_sec mlfr_pause_sec : Q) (tr : list event) (d : result_dict) :
  process_one np_sqrt np_arange_len env path vad_model hf_token device compute_type asr_model
    use_prosody long_pause_sec mlfr_pause_sec = (tr, inr d) ->
  (forall v : Q, Forall (fun m => 0.1 <= score_metric v m <= 1.0) TIMING)
  /\ match d with
     | Scored r => 0.1 <= Timing_Score r <= 1.0
     | InvalidAudio _ _ _ => True
     end
  /\ (dict_Fluency d == 0 <->
      exists total, soundfile_duration env = inr total /\ total == 0).
Proof.
  intros H. split; [exact score_metric_timing|].
  apply process_one_returns in H.
  destruct H as (total & Hdur & [[Hz ->] | [Hnz (feats & n & ->)]]).
  - split; [exact I|]. cbn. split; [eauto | reflexivity].
  - pose proof (scoring_stage_bounds feats use_prosody n total) as [Ht Hf].
    cbv zeta in Ht, Hf. split; [exact Ht|].
    cbn [dict_Fluency]. split.
    + intros Hf0. rewrite Hf0 in Hf. destruct Hf as [Hf _]. exfalso. lra.
    + intros (total' & Hdur' & Hz). rewrite Hdur in Hdur'.
      injection Hdur' as <-. contradiction.
Qed.

Lemma timing_scores_in_range_witness :
  (forall v : Q, Forall (fun m => 0.1 <= score_metric v m <= 1.0) TIMING)
  /\ match three_words_result with
     | Scored r => 0.1 <= Timing_Score r <= 1.0
     | InvalidAudio _ _ _ => True
     end
  /\ (dict_Fluency three_words_result == 0 <->
      exists total, soundfile_duration env_three_words = inr total /\ total == 0).
Proof.
  apply (timing_scores_in_range sqrt_milli arange_len_exact env_three_words "clip.wav"
           "pyannote/voice-activity-detection" None "cpu" "int8" "small.en"
           true 0.7 0.25 three_words_trace three_words_result).
  vm_compute. reflexivity.
Defined.

(** When the detector raises, [silences] stays unbound: the evaluation
    returns (with [PR = 0.0]) only if no word is counted, and otherwise
    stops with the exception of the unbound local. *)
Lemma vad_failure_outcome (np_sqrt : Q -> Q)
    (np_arange_len : Q -> Q -> Q -> nat) (env : Env)
    (path vad_model : string) (hf_token : option string)
    (device compute_type asr_model : string) (use_prosody : bool)
    (long_pause_sec mlfr_pause_sec total : Q) (e : exn) :
  soundfile_duration env = inr total ->
  ~ total == 0 ->
  pyannote_timeline env = inl e ->
  match snd (process_one np_sqrt np_arange_len env path vad_model hf_token device compute_type
               asr_model use_prosody long_pause_sec mlfr_pause_sec) with
  | inl x => counted_words env <> [] /\ x = UnboundLocalError "silences"
  | inr d => counted_words env = [] /\ exists r, d = Scored r /\ PR r = 0.0
  end.
Proof.
  destruct env as [dur vad asr pros]. unfold counted_words.
  cbn [soundfile_duration pyannote_timeline whisper_words].
  intros -> Hnz ->. apply Qeqb_neq in Hnz.
  run_process_one.
  cbn [soundfile_duration pyannote_timeline whisper_words librosa_prosody].
  rewrite Hnz.
  destruct asr as [ea|raw]; cbn [app fst snd List.length filter].
  - destruct use_prosody; [destruct pros as [ep|[f0 rms]]|];
      cbn; (split; [reflexivity|]); eexists; (split; [reflexivity|]); reflexivity.
  - destruct (filter has_alpha (collect_words raw)) as [|w ws] eqn:Ew.
    + destruct use_prosody; [destruct pros as [ep|[f0 rms]]|];
        cbn; (split; [reflexivity|]); eexists; (split; [reflexivity|]); reflexivity.
    + cbn. split; [discriminate | reflexivity].
Qed.

(** C1. With the detector raising, one recognized word is enough for
    [process_one] to stop with an exception instead of returning a
    result: the [except] branch leaves [silences] unassigned and the
    long-pause feature reads it. *)
Theorem process_one_vad_failure_raises (np_sqrt : Q -> Q)
    (np_arange_len : Q -> Q -> Q -> nat) :
  process_one np_sqrt np_arange_len env_vad_down "clip.wav" "pyannote/voice-activity-detection"
    None "cpu" "int8" "small.en" false 0.7 0.25
  = ([Call "soundfile.info"; Call "pyannote.Pipeline";
      Print "VAD failed for clip.wav: 401 Unauthorized";
      Call "WhisperModel.transcribe"],
     inl (UnboundLocalError "silences")).
Proof. reflexivity. Qed.

(** The interface function never looks at the audio: on the file with no
    frames it answers 0.78 and "Advanced". *)
Lemma evaluate_fluency_empty_audio_not_zero :
  ~ (exists tr d,
        evaluate_fluency "empty.wav" "pyannote/voice-activity-detection" None
          "small.en" false 0.7 0.25 = (tr, inr d)
        /\ dict_Fluency d == 0 /\ dict_Level d = "Below Basic"%string).
Proof.
  intros (tr & d & H & Hf & _). injection H as _ <-. cbn in Hf. discriminate.
Qed.

(** C2 (as the code has it). When the duration of the audio reads as
    zero, [process_one] returns the record with [Fluency = 0.0],
    [Level = "Below Basic"] and an [Error] text, raising nothing and
    calling neither detector nor recognizer. *)
Theorem process_one_empty_audio (np_sqrt : Q -> Q)
    (np_arange_len : Q -> Q -> Q -> nat) (env : Env)
    (path vad_model : string) (hf_token : option string)
    (device compute_type asr_model : string) (use_prosody : bool)
    (long_pause_sec mlfr_pause_sec total : Q) :
  soundfile_duration env = inr total ->
  total == 0 ->
  process_one np_sqrt np_arange_len env path vad_model hf_token device compute_type asr_model
    use_prosody long_pause_sec mlfr_pause_sec
  = ([Call "soundfile.info"],
     inr (InvalidAudio 0.0 "Below Basic" "Audio file is empty or invalid.")).
Proof.
  intros Hdur Hz. apply Qeqb_eq in Hz.
  run_process_one. rewrite Hdur, Hz. reflexivity.
Qed.

Lemma process_one_empty_audio_witness :
  process_one sqrt_milli arange_len_exact env_empty_audio "empty.wav"
    "pyannote/voice-activity-detection" None "cpu" "int8" "small.en" false 0.7 0.25
  = ([Call "soundfile.info"],
     inr (InvalidAudio 0.0 "Below Basic" "Audio file is empty or invalid.")).
Proof.
  apply (process_one_empty_audio sqrt_milli arange_len_exact env_empty_audio "empty.wav"
           "pyannote/voice-activity-detection" None "cpu" "int8" "small.en"
           false 0.7 0.25 0); reflexivity.
Defined.

(** C3. Whatever its arguments, [evaluate_fluency] prints the mock-mode
    line and returns the same fourteen constants; its trace holds no call
    to the detector, the recognizer or the duration reader. *)
Theorem evaluate_fluency_constant (audio_path vad_model : string)
    (hf_token : option string) (asr_model : string) (use_prosody : bool)
    (long_pause_sec mlfr_pause_sec : Q) :
  evaluate_fluency audio_path vad_model hf_token asr_model use_prosody
    long_pause_sec mlfr_pause_sec
  = ([Print "[MOCK MODE]: Audio Fluency Evaluation: Returning fixed fluency results immediately."],
     inr (Scored {| Fluency := 0.78; Level := "Advanced"; Timing_Score := 0.85;
                    Prosody_Score := Some 0.65; N_words := 55; Duration := 25.4;
                    SR := 129.9; AR := 165.5; PR := 0.21; LPF := 2.3;
                    MLFR := 8.5; RateSD := 35.0; F0_IQR := 55.0;
                    RMS_IQR := 10.5 |})).
Proof. reflexivity. Qed.

(** ** Long-pause frequency *)

(** A silent minute: one pause of sixty seconds, yet the evaluation
    reports [LPF = 0] because no word was recognized, where the count
    over the duration in minutes is 1. *)
Lemma lpf_zero_without_words :
  match snd (process_one sqrt_milli arange_len_exact env_silent_minute "quiet.wav"
               "pyannote/voice-activity-detection" None "cpu" "int8" "small.en"
               false 0.7 0.25) with
  | inr (Scored r) =>
      N_words r = 0%nat
      /\ long_pause_rate (silences_from_speech (merge_timeline []) 60) 0.7 60 == 1
      /\ ~ LPF r == long_pause_rate (silences_from_speech (merge_timeline []) 60) 0.7 60
  | _ => False
  end.
Proof. vm_compute. repeat split; discriminate. Qed.

(** C6 (as the code has it). In an evaluation whose audio has a nonzero
    duration and whose detector answered, [LPF] is the number of derived
    silences at least [long_pause_sec] long divided by the duration in
    minutes (0 for a duration of at most one microsecond) when at least
    one word is counted, and 0.0 when none is. *)
Theorem lpf_of_evaluation (np_sqrt : Q -> Q)
    (np_arange_len : Q -> Q -> Q -> nat) (env : Env)
    (path vad_model : string) (hf_token : option string)
    (device compute_type asr_model : string) (use_prosody : bool)
    (long_pause_sec mlfr_pause_sec total : Q) (timeline : list seg) :
  soundfile_duration env = inr total ->
  ~ total == 0 ->
  pyannote_timeline env = inr timeline ->
  exists tr r,
    process_one np_sqrt np_arange_len env path vad_model hf_token device compute_type asr_model
      use_prosody long_pause_sec mlfr_pause_sec = (tr, inr (Scored r))
    /\ LPF r =
       match counted_words env with
       | [] => 0.0
       | _ :: _ =>
           long_pause_rate (silences_from_speech (merge_timeline timeline) total)
             long_pause_sec total
       end.
Proof.
  destruct env as [dur vad asr pros]. unfold counted_words.
  cbn [soundfile_duration pyannote_timeline whisper_words].
  intros -> Hnz ->. apply Qeqb_neq in Hnz.
  run_process_one.
  cbn [soundfile_duration pyannote_timeline whisper_words librosa_prosody].
  rewrite Hnz, long_pause_freq_rate.
  destruct asr as [ea|raw]; cbn [app fst snd List.length filter].
  - destruct use_prosody; [destruct pros as [ep|[f0 rms]]|];
      cbn; do 2 eexists; split; reflexivity.
  - destruct (filter has_alpha (collect_words raw)) as [|w ws] eqn:Ew;
      (destruct use_prosody; [destruct pros as [ep|[f0 rms]]|]);
      cbn; do 2 eexists; split; reflexivity.
Qed.

Lemma lpf_of_evaluation_witness :
  exists tr r,
    process_one sqrt_milli arange_len_exact env_three_words "clip.wav"
      "pyannote/voice-activity-detection" None "cpu" "int8" "small.en"
      true 0.7 0.25 = (tr, inr (Scored r))
    /\ LPF r =
       match counted_words env_three_words with
       | [] => 0.0
       | _ :: _ =>
           long_pause_rate
             (silences_from_speech
                (merge_timeline [(0.5, 2.0); (2.1, 3.0); (6.0, 9.0)]) 20)
             0.7 20
       end.
Proof.
  apply (lpf_of_evaluation sqrt_milli arange_len_exact env_three_words "clip.wav"
           "pyannote/voice-activity-detection" None "cpu" "int8" "small.en"
           true 0.7 0.25 20 [(0.5, 2.0); (2.1, 3.0); (6.0, 9.0)]).
  - reflexivity.
  - discriminate.
  - reflexivity.
Defined.

(** ** Mean length of fluent run *)

Lemma insert_word_length (w : Word) (l : list Word) :
  List.length (insert_word w l) = S (List.length l).
Proof.
  induction l as [|y r IH]; simpl; [reflexivity|].
  destruct (start y <? start w); simpl; [rewrite IH|]; reflexivity.
Qed.

Lemma sort_words_length (words : list Word) :
  List.length (sort_words words) = List.length words.
Proof.
  induction words as [|w r IH]; simpl; [reflexivity|].
  rewrite insert_word_length, IH. reflexivity.
Qed.

Lemma split_runs_concat (thr : Q) (rest : list Word) :
  forall prev, List.concat (split_runs thr prev rest) = prev :: rest.
Proof.
  induction rest as [|w r IH]; intros prev; simpl; [reflexivity|].
  specialize (IH w).
  destruct (thr <=? pause prev w); simpl.
  - rewrite IH. reflexivity.
  - destruct (split_runs thr w r) as [|run runs]; [discriminate|].
    simpl in *. rewrite IH. reflexivity.
Qed.

Lemma mlfr_step_eq (thr : Q) (runs : list nat) (n : nat) (a b : Word) :
  mlfr_step thr (runs, n) (a, b)
  = if thr <=? pause a b then (runs ++ [n], 1%nat) else (runs, S n).
Proof. reflexivity. Qed.

(** The loop of [mlfr] started in the middle of a run of [S k] words
    ends with the run lengths of the cut, the first one increased by [k]. *)
Lemma mlfr_loop_runs (thr : Q) (rest : list Word) :
  forall (prev : Word) (runs : list nat) (k : nat),
  exists h t,
    map (@List.length Word) (split_runs thr prev rest) = h :: t
    /\ (let st := fold_left (mlfr_step thr) (combine (prev :: rest) rest) (runs, S k) in
        fst st ++ [snd st]) = runs ++ (k + h)%nat :: t.
Proof.
  induction rest as [|w r IH]; intros prev runs k.
  - exists 1%nat, []. split; [reflexivity|]. simpl. rewrite Nat.add_1_r. reflexivity.
  - change (combine (prev :: w :: r) (w :: r)) with ((prev, w) :: combine (w :: r) r).
    cbn [fold_left split_runs]. cbv zeta. rewrite !mlfr_step_eq.
    destruct (thr <=? pause prev w).
    + destruct (IH w (runs ++ [S k]) 0%nat) as (h & t & Hs & Hf).
      exists 1%nat, (h :: t). split.
      * cbn [map List.length]. rewrite Hs. reflexivity.
      * cbv zeta in *. rewrite Hf, <- app_assoc, Nat.add_1_r. reflexivity.
    + destruct (IH w runs (S k)) as (h & t & Hs & Hf).
      destruct (split_runs thr w r) as [|run runs'] eqn:Er; [discriminate|].
      exists (S h), t. split.
      * cbn [map List.length] in *. injection Hs as Hh Ht. rewrite Hh, Ht. reflexivity.
      * cbv zeta in *. rewrite Hf, Nat.add_succ_r. reflexivity.
Qed.

Lemma mlfr_runs_split (words : list Word) (thr : Q) :
  words <> [] ->
  mlfr_runs words thr
  = map (@List.length Word) (fluent_runs thr (sort_words words)).
Proof.
  intros Hne. unfold mlfr_runs, fluent_runs.
  destruct (sort_words words) as [|w r] eqn:Es.
  - apply (f_equal (@List.length Word)) in Es. rewrite sort_words_length in Es.
    destruct words; [contradiction | discriminate].
  - cbn [tl].
    destruct (mlfr_loop_runs thr r w [] 0%nat) as (h & t & Hs & Hf).
    cbv zeta in Hf. rewrite Hs.
    destruct (fold_left (mlfr_step thr) (combine (w :: r) r) ([], 1%nat)) as [runs rl].
    exact Hf.
Qed.

Lemma no_pause_single_run (thr : Q) (rest : list Word) :
  forall prev,
    consecutive (fun a b => pause a b < thr) (prev :: rest) ->
    split_runs thr prev rest = [prev :: rest].
Proof.
  induction rest as [|w r IH]; intros prev [Hp Hr]; simpl; [reflexivity|].
  apply Qleb_gt in Hp. rewrite Hp, (IH w Hr). reflexivity.
Qed.

Lemma pause_positive_threshold (thr : Q) (a b : Word) :
  0 < thr -> (pause a b < thr <-> start b - end_ a < thr).
Proof.
  intros Hthr. unfold pause, py_max. qcases; lra.
Qed.

Lemma consecutive_impl (P R : Word -> Word -> Prop) (l : list Word) :
  (forall a b, P a b -> R a b) -> consecutive P l -> consecutive R l.
Proof.
  intros HPR. induction l as [|a r IH]; [auto|].
  intros [Ha Hr]. split; [|auto]. destruct r; auto.
Qed.

Lemma Qnat_over_one (n : nat) : Qnat n / Qnat 1 == Qnat n.
Proof. change (Qnat 1) with 1. field. Qed.

(** With a threshold of zero every word is a run of its own, also where
    the next word starts before the previous one ends: the two
    overlapping words have no gap of at least 0 between them, and [mlfr]
    returns 1, not 2. *)
Lemma mlfr_zero_threshold_splits :
  sort_words overlapping_pair = overlapping_pair
  /\ consecutive (fun a b => ~ 0 <= start b - end_ a) (sort_words overlapping_pair)
  /\ mlfr overlapping_pair 0 == 1
  /\ ~ mlfr overlapping_pair 0 == Qnat (List.length overlapping_pair).
Proof.
  split; [reflexivity|]. split.
  - cbn. repeat split. intros H. apply H. reflexivity.
  - split; [reflexivity | discriminate].
Qed.

(** C8 (as the code has it). [mlfr] returns 0 for the empty list and
    otherwise the arithmetic mean of the lengths of the runs obtained by
    cutting the words, sorted by start, at every pause of at least the
    threshold, the pause being the next start minus the previous end
    raised to 0 when negative.  For a non-empty list without such a
    pause it returns the number of words; for a positive threshold the
    pause may be read as the bare difference. *)
Theorem mlfr_mean_of_runs (words : list Word) (pause_thr : Q) :
  mlfr [] pause_thr = 0
  /\ mlfr words pause_thr
     = match words with
       | [] => 0
       | _ :: _ =>
           np_mean (map (@List.length Word)
                        (fluent_runs pause_thr (sort_words words)))
       end
  /\ (words <> [] ->
      consecutive (fun a b => pause a b < pause_thr) (sort_words words) ->
      mlfr words pause_thr == Qnat (List.length words))
  /\ (words <> [] ->
      0 < pause_thr ->
      consecutive (fun a b => start b - end_ a < pause_thr) (sort_words words) ->
      mlfr words pause_thr == Qnat (List.length words)).
Proof.
  assert (Hgen : mlfr words pause_thr
     = match words with
       | [] => 0
       | _ :: _ =>
           np_mean (map (@List.length Word)
                        (fluent_runs pause_thr (sort_words words)))
       end).
  { destruct words as [|w r]; [reflexivity|].
    unfold mlfr. rewrite mlfr_runs_split by discriminate.
    destruct (map _ _) eqn:E; [|reflexivity].
    unfold fluent_runs in E.
    destruct (sort_words (w :: r)) as [|w' r'] eqn:Es.
    - apply (f_equal (@List.length Word)) in Es.
      rewrite sort_words_length in Es. discriminate.
    - destruct (mlfr_loop_runs pause_thr r' w' [] 0%nat) as (h & t & Hs & _).
      congruence. }
  assert (Hone : words <> [] ->
      consecutive (fun a b => pause a b < pause_thr) (sort_words words) ->
      mlfr words pause_thr == Qnat (List.length words)).
  { intros Hne Hno. rewrite Hgen.
    destruct words as [|w r]; [contradiction|].
    rewrite <- (sort_words_length (w :: r)).
    unfold fluent_runs.
    destruct (sort_words (w :: r)) as [|w' r'] eqn:Es.
    - apply (f_equal (@List.length Word)) in Es.
      rewrite sort_words_length in Es. discriminate.
    - rewrite (no_pause_single_run pause_thr r' w' Hno).
      unfold np_mean. cbn [map fold_left List.length Nat.add].
      apply (Qnat_over_one (S (List.length r'))). }
  repeat split; [exact Hgen | exact Hone |].
  intros Hne Hpos Hraw. apply Hone; [exact Hne|].
  revert Hraw. apply consecutive_impl.
  intros a b. apply pause_positive_threshold, Hpos.
Qed.

Lemma mlfr_mean_of_runs_witness :
  mlfr close_triple 0.25
  = np_mean (map (@List.length Word) (fluent_runs 0.25 (sort_words close_triple)))
  /\ mlfr close_triple 0.25 == Qnat (List.length close_triple).
Proof.
  destruct (mlfr_mean_of_runs close_triple 0.25) as (_ & Hgen & _ & Hraw).
  split; [exact Hgen|].
  apply Hraw.
  - discriminate.
  - reflexivity.
  - cbn. repeat split; reflexivity.
Defined.

(** ** Rate stability *)

Lemma consecutive_app (P : Word -> Word -> Prop) (l1 l2 : list Word) :
  consecutive P (l1 ++ l2) -> consecutive P l1 /\ consecutive P l2.
Proof.
  induction l1 as [|a r IH]; simpl.
  - auto.
  - intros [Ha Hr]. destruct (IH Hr) as [H1 H2]. repeat split; auto.
    destruct r; auto.
Qed.

Lemma in_time_order_app (l1 l2 : list Word) :
  in_time_order (l1 ++ l2) -> in_time_order l1 /\ in_time_order l2.
Proof.
  intros [Hwf Hc]. apply Forall_app in Hwf. apply consecutive_app in Hc.
  unfold in_time_order. tauto.
Qed.

Lemma in_time_order_tail (w : Word) (l : list Word) :
  in_time_order (w :: l) -> in_time_order l.
Proof. apply (in_time_order_app [w] l). Qed.

(** Every later word starts after an earlier word has ended. *)
Lemma in_time_order_head (l : list Word) :
  forall w, in_time_order (w :: l) -> Forall (fun x => end_ w <= start x) l.
Proof.
  induction l as [|b r IH]; intros w H; [constructor|].
  pose proof (in_time_order_tail _ _ H) as Ht.
  destruct H as [Hwf [Hwb _]].
  inversion Hwf as [|? ? _ Hwf']; subst. inversion Hwf' as [|? ? Hb _]; subst.
  constructor; [exact Hwb|].
  specialize (IH b Ht). revert IH. apply Forall_impl. intros x Hx. lra.
Qed.

(** In a stretch of words that all start before [e], all but the last
    have ended by [e]. *)
Lemma all_but_last_ended (e : Q) (l : list Word) :
  in_time_order l ->
  Forall (fun w => start w < e) l ->
  Forall (fun w => end_ w <= e) (removelast l).
Proof.
  induction l as [|a r IH]; intros Hord Hst; [constructor|].
  destruct r as [|b r']; [constructor|].
  change (removelast (a :: b :: r')) with (a :: removelast (b :: r')).
  inversion Hst as [|? ? _ Hst']; subst.
  constructor.
  - destruct Hord as [_ [Hab _]]. inversion Hst' as [|? ? Hb _]; subst. lra.
  - apply IH; [exact (in_time_order_tail _ _ Hord) | exact Hst'].
Qed.

Lemma Forall_firstn {A} (P : A -> Prop) (n : nat) (l : list A) :
  Forall P l -> Forall P (firstn n l).
Proof.
  revert n. induction l as [|a r IH]; intros [|n] H; simpl; try constructor.
  - inversion H; assumption.
  - apply IH. inversion H; assumption.
Qed.

(** What one run of the inner loop does on time-ordered words: it walks
    over the words that start before [e] and counts those of them that
    end after [s]. *)
Lemma scan_window_spec (s e : Q) (l : list Word) :
  in_time_order l ->
  forall wi c,
  exists pre post,
    l = pre ++ post
    /\ Forall (fun w => start w < e) pre
    /\ Forall (fun w => e <= start w) post
    /\ scan_window l s e wi c
       = ((wi + List.length pre)%nat,
          Nat.add c (List.length (filter (fun w => s <? end_ w) pre))).
Proof.
  induction l as [|w r IH]; intros Hord wi c.
  - exists [], []. cbn. rewrite !Nat.add_0_r. repeat split; constructor.
  - cbn [scan_window]. destruct (start w <? e) eqn:E; qtest_hyps.
    + destruct (IH (in_time_order_tail _ _ Hord) (S wi)
                  (if s <? end_ w then S c else c)) as (pre & post & -> & Hpre & Hpost & ->).
      exists (w :: pre), post. repeat split; auto.
      cbn [List.length filter]. destruct (s <? end_ w); cbn [List.length];
        f_equal; lia.
    + exists [], (w :: r). cbn. rewrite !Nat.add_0_r. repeat split; auto.
      constructor; [exact E|].
      pose proof (in_time_order_head _ _ Hord) as Hh.
      destruct Hord as [Hwf _]. inversion Hwf as [|? ? Hw _]; subst.
      revert Hh. apply Forall_impl. intros x Hx. lra.
Qed.

Lemma filter_none {A} (f : A -> bool) (l : list A) :
  Forall (fun a => f a = false) l -> filter f l = [].
Proof.
  induction 1 as [|a r Ha _ IH]; simpl; [reflexivity|]. rewrite Ha. exact IH.
Qed.

Lemma filter_same {A} (f g : A -> bool) (l : list A) :
  Forall (fun a => f a = g a) l -> filter f l = filter g l.
Proof.
  induction 1 as [|a r Ha _ IH]; simpl; [reflexivity|]. rewrite Ha, IH. reflexivity.
Qed.

(** The count of the inner loop is the number of words meeting the
    window, once the words before the index have ended by its start. *)
Lemma overlaps_count (s e : Q) (done pre post : list Word) :
  Forall (fun w => end_ w <= s) done ->
  Forall (fun w => start w < e) pre ->
  Forall (fun w => e <= start w) post ->
  List.length (filter (overlaps s e) (done ++ pre ++ post))
  = List.length (filter (fun w => s <? end_ w) pre).
Proof.
  intros Hd Hpre Hpost. rewrite !filter_app, !length_app.
  rewrite (filter_none (overlaps s e) done), (filter_none (overlaps s e) post).
  - rewrite (filter_same (overlaps s e) (fun w => s <? end_ w) pre).
    + cbn. lia.
    + revert Hpre. apply Forall_impl. intros w Hw. unfold overlaps.
      apply Qltb_lt in Hw. rewrite Hw. reflexivity.
  - revert Hpost. apply Forall_impl. intros w Hw. unfold overlaps.
    apply Qltb_ge in Hw. rewrite Hw. reflexivity.
  - revert Hd. apply Forall_impl. intros w Hw. unfold overlaps.
    apply Qltb_ge in Hw. rewrite Hw. apply andb_false_r.
Qed.

(** After the back-off of five positions, the words before the index
    have ended by the end of the window just scanned. *)
Lemma backoff_keeps_ended (s e : Q) (done pre post : list Word) :
  in_time_order (done ++ pre ++ post) ->
  s < e ->
  Forall (fun w => end_ w <= s) done ->
  Forall (fun w => start w < e) pre ->
  let wi' := (List.length done + List.length pre)%nat in
  Forall (fun w => end_ w <= e)
         (firstn (Nat.max 0 (wi' - 5)) (done ++ pre ++ post)).
Proof.
  intros Hord Hse Hd Hpre wi'.
  rewrite app_assoc in *.
  destruct (in_time_order_app _ _ Hord) as [Hord1 _].
  set (l1 := done ++ pre) in *.
  assert (Hlen : List.length l1 = wi') by (unfold l1; apply length_app).
  assert (Hst : Forall (fun w => start w < e) l1).
  { unfold l1. apply Forall_app. split; [|exact Hpre].
    destruct (in_time_order_app _ _ Hord1) as [[Hwf _] _].
    rewrite Forall_forall in *. intros w Hw.
    specialize (Hwf w Hw). specialize (Hd w Hw). cbn beta in *. lra. }
  rewrite Nat.max_0_l.
  destruct (wi' - 5)%nat as [|m] eqn:Em; [constructor|].
  rewrite firstn_app.
  replace (S m - List.length l1)%nat with 0%nat by lia.
  change (firstn 0 post) with (@nil Word). rewrite app_nil_r.
  rewrite <- firstn_removelast by lia.
  apply Forall_firstn, all_but_last_ended; assumption.
Qed.

Lemma window_rates_exact (words : list Word) (window_sec : Q) :
  in_time_order words ->
  forall (wins : list (Q * Q)) (wi : nat),
    successive wins ->
    (wi <= List.length words)%nat ->
    match wins with
    | x :: _ => Forall (fun w => end_ w <= fst x) (firstn wi words)
    | [] => True
    end ->
    window_rates words window_sec wins wi = map (rate_in words window_sec) wins.
Proof.
  intros Hord. induction wins as [|[s e] more IH]; intros wi Hsucc Hwi Hdone;
    [reflexivity|].
  cbn [window_rates map]. cbn [fst] in Hdone.
  destruct Hsucc as (Hse & Hnext & Hsucc). cbn [fst snd] in Hse, Hnext.
  pose proof (firstn_skipn wi words) as Hsplit.
  assert (Hlen : List.length (firstn wi words) = wi) by (apply firstn_length_le, Hwi).
  set (done := firstn wi words) in *. set (todo := skipn wi words) in *.
  assert (Htodo : in_time_order todo).
  { rewrite <- Hsplit in Hord. apply (in_time_order_app _ _ Hord). }
  destruct (scan_window_spec s e todo Htodo wi 0%nat)
    as (pre & post & Etodo & Hpre & Hpost & ->).
  cbn [Nat.add]. rewrite Etodo in Hsplit.
  f_equal.
  - unfold rate_in. cbn [fst snd]. rewrite <- Hsplit.
    rewrite (overlaps_count s e done pre post Hdone Hpre Hpost). reflexivity.
  - apply IH; [exact Hsucc | |].
    + apply (f_equal (@List.length Word)) in Hsplit.
      rewrite !length_app in Hsplit. lia.
    + destruct more as [|y more']; [exact I|].
      rewrite <- Hsplit in Hord |- *.
      pose proof (backoff_keeps_ended s e done pre post Hord Hse Hdone Hpre) as Hb.
      cbv zeta in Hb. rewrite Hlen in Hb.
      revert Hb. apply Forall_impl. intros w Hw. lra.
Qed.

Lemma Qnat_S (n : nat) : Qnat (S n) == Qnat n + 1.
Proof.
  unfold Qnat. rewrite Nat2Z.inj_succ. unfold Z.succ.
  rewrite inject_Z_plus. reflexivity.
Qed.

Lemma combine_bins (f : nat -> Q) (n : nat) :
  forall a,
    combine (map f (seq a n)) (tl (map f (seq a n)))
    = map (fun b => (f b, f (S b))) (seq a (n - 1)).
Proof.
  induction n as [|n IH]; intros a; [reflexivity|].
  destruct n as [|n]; [reflexivity|].
  specialize (IH (S a)).
  change (seq a (S (S n))) with (a :: seq (S a) (S n)).
  replace (S (S n) - 1)%nat with (S n) by lia.
  replace (S n - 1)%nat with n in IH by lia.
  cbn [map tl]. cbn [seq map tl] in IH. cbn [seq map combine].
  f_equal. exact IH.
Qed.

Lemma windows_successive (t0 window_sec : Q) (k : nat) :
  0 < window_sec ->
  forall a, successive (map (window t0 window_sec) (seq a k)).
Proof.
  intros Hpos. induction k as [|k IH]; intros a; [exact I|].
  cbn [seq map successive]. unfold window at 1 2. cbn [fst snd].
  pose proof (Qnat_S a) as HS.
  split; [|split; [|apply IH]].
  - rewrite HS. lra.
  - destruct k; [exact I|]. cbn [seq map]. unfold window. cbn [fst snd].
    apply Qle_refl.
Qed.

Lemma wpm_list_exact (np_arange_len : Q -> Q -> Q -> nat)
    (w0 : Word) (rest : list Word) (window_sec : Q) :
  0 < window_sec ->
  in_time_order (w0 :: rest) ->
  wpm_list np_arange_len w0 rest window_sec
  = exact_rates (w0 :: rest) window_sec (start w0)
      (window_count np_arange_len (start w0) (max_end w0 rest) window_sec).
Proof.
  intros Hpos Hord. unfold wpm_list, np_arange, exact_rates, window_count.
  rewrite combine_bins.
  rewrite (window_rates_exact (w0 :: rest) window_sec Hord
             (map (window (start w0) window_sec) (seq 0 _)) 0).
  - rewrite map_map. reflexivity.
  - apply windows_successive, Hpos.
  - lia.
  - destruct (map _ _); [exact I | constructor].
Qed.



(** For a word of positive length, meeting a window is sharing an
    instant with it, both taken half-open. *)
Lemma overlaps_half_open (s e : Q) (w : Word) :
  start w < end_ w ->
  s < e ->
  (overlaps s e w = true <->
   exists t, (start w <= t /\ t < end_ w) /\ (s <= t /\ t < e)).
Proof.
  intros Hw Hse. unfold overlaps. rewrite andb_true_iff, !Qltb_lt. split.
  - intros [H1 H2]. destruct (Qlt_le_dec s (start w)).
    + exists (start w). repeat split; lra.
    + exists s. repeat split; lra.
  - intros (t & [? ?] & [? ?]). split; lra.
Qed.




(** On [steady_clip] the span is 10 s, two windows: the exact quotient
    [(11.1 + 5 - 1.1) / 5] is 3.  In floating point it is
    [3.0000000000000004] and [np.arange(1.1, 16.1, 5.0)] has four
    values: [rate_stability] then has a third window, which no word
    meets, and the rates 60, 60 and 0 in place of 60 and 60. *)
Lemma rate_stability_rounded_count (np_sqrt : Q -> Q)
    (np_arange_len : Q -> Q -> Q -> nat) :
  np_arange_len 1.1 (max_end (mkWord "one" 1.1 2.1) (tl steady_clip) + 5) 5
  = 4%nat ->
  in_time_order steady_clip
  /\ arange_len_exact 1.1 (max_end (mkWord "one" 1.1 2.1) (tl steady_clip) + 5) 5
     = 3%nat
  /\ rate_stability np_sqrt np_arange_len steady_clip 5
     = np_sqrt (sample_variance (exact_rates steady_clip 5 1.1 3))
  /\ Forall2 Qeq (exact_rates steady_clip 5 1.1 3) [60; 60; 0]
  /\ rate_stability np_sqrt arange_len_exact steady_clip 5
     = np_sqrt (sample_variance (exact_rates steady_clip 5 1.1 2))
  /\ Forall2 Qeq (exact_rates steady_clip 5 1.1 2) [60; 60].
Proof.
  intros Hlen.
  assert (Hord : in_time_order steady_clip).
  { split.
    - repeat constructor; cbn; discriminate.
    - cbn. repeat split; discriminate. }
  split; [exact Hord|]. split; [reflexivity|].
  split; [|split; [|split]].
  - unfold rate_stability, steady_clip.
    rewrite (wpm_list_exact np_arange_len _ _ 5 eq_refl Hord).
    unfold window_count. cbn [start]. cbn [tl steady_clip] in Hlen.
    rewrite Hlen. reflexivity.
  - repeat constructor.
  - reflexivity.
  - repeat constructor.
Qed.

(** * Further properties of the pipeline *)

(** ** Merged speech segments *)

Lemma py_max_cases (a b : Q) : py_max a b = a \/ py_max a b = b.
Proof. unfold py_max. destruct (a <? b); auto. Qed.

Lemma py_max_bounds (a b : Q) : a <= py_max a b /\ b <= py_max a b.
Proof. unfold py_max. qcases; split; lra. Qed.

(** A property of segments that merging two of them keeps is kept by the
    whole pass. *)
Lemma merge_from_Forall (P : seg -> Prop) :
  (forall a b, P a -> P b -> P (fst a, py_max (snd a) (snd b))) ->
  forall rest cur, P cur -> Forall P rest -> Forall P (merge_from cur rest).
Proof.
  intros Hmerge. induction rest as [|x r IH]; intros cur Hcur Hrest; simpl.
  - repeat constructor. exact Hcur.
  - inversion Hrest as [|? ? Hx Hr]; subst.
    destruct (fst x - snd cur <? 0.15).
    + apply IH; auto.
    + constructor; auto.
Qed.

Lemma merge_pass_Forall (P : seg -> Prop) (l : list seg) :
  (forall a b, P a -> P b -> P (fst a, py_max (snd a) (snd b))) ->
  Forall P l -> Forall P (merge_pass l).
Proof.
  intros Hmerge Hl. destruct l as [|x r]; [constructor|].
  rewrite merge_pass_cons. inversion Hl; subst.
  apply merge_from_Forall; assumption.
Qed.

Lemma merge_from_length (rest : list seg) :
  forall cur, (List.length (merge_from cur rest) <= S (List.length rest))%nat.
Proof.
  induction rest as [|x r IH]; intros cur; simpl; [lia|].
  destruct (fst x - snd cur <? 0.15).
  - specialize (IH (fst cur, py_max (snd cur) (snd x))). lia.
  - specialize (IH x). simpl. lia.
Qed.

(** The pass leaves its own output alone (stated for reuse). *)
Lemma merge_pass_idempotent_aux (segments : list seg) :
  merge_pass (merge_pass segments) = merge_pass segments.
Proof.
  destruct segments as [|x r]; [reflexivity|].
  rewrite merge_pass_cons.
  pose proof (merge_from_separated r x) as Hsep.
  destruct (merge_from_head r x) as (e & r' & Hx).
  rewrite Hx in *. rewrite merge_pass_cons.
  apply separated_merge_from, Hsep.
Qed.

Lemma merge_pass_separated_aux (segments : list seg) :
  separated (merge_pass segments).
Proof.
  destruct segments as [|x r]; [exact I|].
  rewrite merge_pass_cons. apply merge_from_separated.
Qed.

(** X1. Whatever the segments, two neighbours of the merged list are at
    least 150 ms apart: the next start minus the previous end is never
    below 0.15. *)
Theorem merge_pass_separated (segments : list seg) :
  separated (merge_pass segments).
Proof. apply merge_pass_separated_aux. Qed.

(** X2. The merge pass invents no boundary and no segment: each merged
    segment starts where some given segment starts and ends where some
    given segment ends, and there are at most as many merged segments
    as given ones. *)
Theorem merge_pass_boundaries (segments : list seg) :
  Forall (fun y => In (fst y) (map fst segments) /\ In (snd y) (map snd segments))
         (merge_pass segments)
  /\ (List.length (merge_pass segments) <= List.length segments)%nat.
Proof.
  split.
  - apply merge_pass_Forall.
    + intros a b [Ha1 Ha2] [Hb1 Hb2]. cbn [fst snd]. split; [exact Ha1|].
      destruct (py_max_cases (snd a) (snd b)) as [-> | ->]; assumption.
    + rewrite Forall_forall. intros y Hy. split; apply in_map; exact Hy.
  - destruct segments as [|x r]; [apply Nat.le_refl|].
    rewrite merge_pass_cons. apply merge_from_length.
Qed.

Lemma insert_seg_In (z x : seg) (l : list seg) :
  In z (insert_seg x l) <-> z = x \/ In z l.
Proof.
  induction l as [|y r IH]; simpl.
  - intuition.
  - destruct (seg_ltb y x); simpl; rewrite ?IH; intuition.
Qed.

Lemma sort_segs_In (z : seg) (l : list seg) :
  In z (sort_segs l) <-> In z l.
Proof.
  induction l as [|x r IH]; simpl; [tauto|].
  rewrite insert_seg_In, IH. intuition.
Qed.

Lemma sort_segs_Forall (P : seg -> Prop) (l : list seg) :
  Forall P l -> Forall P (sort_segs l).
Proof.
  rewrite !Forall_forall. intros H z Hz. apply H, sort_segs_In, Hz.
Qed.

Lemma insert_seg_sorted (x : seg) (l : list seg) :
  sorted_by_start l -> sorted_by_start (insert_seg x l).
Proof.
  induction l as [|y r IH]; intros Hl; simpl.
  - split; [constructor | exact I].
  - destruct Hl as [Hy Hr]. unfold seg_ltb.
    destruct (fst y <? fst x) eqn:E1; cbn [orb].
    + qtest_hyps. split; [|exact (IH Hr)].
      rewrite Forall_forall in *. intros z Hz.
      apply insert_seg_In in Hz. destruct Hz as [-> | Hz]; [lra | auto].
    + destruct ((fst y =? fst x) && (snd y <? snd x)) eqn:E2.
      * apply andb_true_iff in E2. destruct E2 as [E2 _]. qtest_hyps.
        split; [|exact (IH Hr)].
        rewrite Forall_forall in *. intros z Hz.
        apply insert_seg_In in Hz. destruct Hz as [-> | Hz]; [lra | auto].
      * qtest_hyps. split; [|split; assumption].
        constructor; [exact E1|].
        revert Hy. apply Forall_impl. intros z Hz. lra.
Qed.

Lemma sort_segs_sorted (l : list seg) : sorted_by_start (sort_segs l).
Proof.
  induction l as [|x r IH]; simpl; [exact I|]. apply insert_seg_sorted, IH.
Qed.

Lemma increasing_starts_sorted (l : list seg) :
  increasing_starts l -> sort_segs l = l.
Proof.
  induction l as [|x r IH]; intros H; [reflexivity|].
  destruct H as [Hx Hr]. simpl. rewrite (IH Hr).
  destruct r as [|y r']; [reflexivity|].
  simpl. unfold seg_ltb.
  assert (E1 : (fst y <? fst x) = false) by (apply Qltb_ge; lra).
  assert (E2 : (fst y =? fst x) = false) by (apply Qeqb_neq; lra).
  rewrite E1, E2. reflexivity.
Qed.

Lemma contained_merge (T : Q) (a b : seg) :
  (0 <= fst a /\ fst a <= snd a /\ snd a <= T) ->
  (0 <= fst b /\ fst b <= snd b /\ snd b <= T) ->
  0 <= fst (fst a, py_max (snd a) (snd b))
  /\ fst (fst a, py_max (snd a) (snd b)) <= snd (fst a, py_max (snd a) (snd b))
  /\ snd (fst a, py_max (snd a) (snd b)) <= T.
Proof.
  intros (Ha1 & Ha2 & Ha3) (Hb1 & Hb2 & Hb3). cbn [fst snd].
  pose proof (py_max_bounds (snd a) (snd b)) as [? ?].
  destruct (py_max_cases (snd a) (snd b)) as [E | E]; rewrite E in *;
    repeat split; lra.
Qed.

Lemma separated_well_formed_disjoint (l : list seg) :
  Forall (fun y => fst y <= snd y) l ->
  separated l ->
  sorted_disjoint l /\ increasing_starts l.
Proof.
  induction l as [|x r IH]; intros Hwf Hsep; [split; exact I|].
  inversion Hwf as [|? ? Hx Hr]; subst. destruct Hsep as [Hxy Hsep].
  destruct (IH Hr Hsep) as [H1 H2].
  destruct r as [|y r'].
  - repeat split.
  - qtest_hyps. inversion Hr; subst. cbn beta in *.
    split; (split; [lra | assumption]).
Qed.

(** Order of the merged segments (stated for reuse). *)
Lemma merge_timeline_in_order_aux (T : Q) (timeline : list seg) :
  contained T timeline ->
  contained T (merge_timeline timeline)
  /\ sorted_disjoint (merge_timeline timeline)
  /\ increasing_starts (merge_timeline timeline).
Proof.
  intros Hin. unfold merge_timeline.
  assert (Hc : contained T (merge_pass (sort_segs timeline))).
  { apply merge_pass_Forall; [apply contained_merge|].
    apply sort_segs_Forall, Hin. }
  split; [exact Hc|].
  apply separated_well_formed_disjoint.
  - apply (contained_well_formed T), Hc.
  - apply merge_pass_separated_aux.
Qed.

(** X3. When every segment the detector gives is well formed and lies
    in [[0, T]], so is every merged segment, and the merged segments are
    listed in time order without overlap, with strictly increasing
    starts. *)
Theorem merge_timeline_in_order (T : Q) (timeline : list seg) :
  contained T timeline ->
  contained T (merge_timeline timeline)
  /\ sorted_disjoint (merge_timeline timeline)
  /\ increasing_starts (merge_timeline timeline).
Proof. apply merge_timeline_in_order_aux. Qed.

Lemma merge_timeline_in_order_witness :
  contained 6 (merge_timeline [(2.5, 4); (1, 2); (2.05, 2.2)])
  /\ sorted_disjoint (merge_timeline [(2.5, 4); (1, 2); (2.05, 2.2)])
  /\ increasing_starts (merge_timeline [(2.5, 4); (1, 2); (2.05, 2.2)]).
Proof.
  apply (merge_timeline_in_order 6 [(2.5, 4); (1, 2); (2.05, 2.2)]).
  repeat constructor; cbn; discriminate.
Defined.

(** X4. On well-formed segments the whole post-processing of
    [run_pyannote_vad], sorting included, is idempotent. *)
Theorem merge_timeline_idempotent (timeline : list seg) :
  Forall (fun y => fst y <= snd y) timeline ->
  merge_timeline (merge_timeline timeline) = merge_timeline timeline.
Proof.
  intros Hwf. unfold merge_timeline at 1.
  assert (Hm : Forall (fun y => fst y <= snd y) (merge_timeline timeline)).
  { unfold merge_timeline. apply merge_pass_Forall.
    - intros a b Ha Hb. cbn [fst snd] in *.
      pose proof (py_max_bounds (snd a) (snd b)) as [? ?]. lra.
    - apply sort_segs_Forall, Hwf. }
  destruct (separated_well_formed_disjoint _ Hm (merge_pass_separated_aux _)) as [_ Hinc].
  rewrite (increasing_starts_sorted _ Hinc).
  unfold merge_timeline. apply merge_pass_idempotent_aux.
Qed.

Lemma merge_timeline_idempotent_witness :
  merge_timeline (merge_timeline [(2.5, 4); (1, 2); (2.05, 2.2)])
  = merge_timeline [(2.5, 4); (1, 2); (2.05, 2.2)].
Proof.
  apply (merge_timeline_idempotent [(2.5, 4); (1, 2); (2.05, 2.2)]).
  repeat constructor; cbn; discriminate.
Defined.

Lemma merge_from_covers (rest : list seg) :
  forall cur,
    sorted_by_start (cur :: rest) ->
    forall z, In z (cur :: rest) ->
    exists y, In y (merge_from cur rest) /\ inside z y.
Proof.
  unfold inside.
  induction rest as [|x r IH]; intros cur [Hcur Hsorted] z Hz.
  - destruct Hz as [<- | []]. exists cur. split; [left; reflexivity|]. split; lra.
  - inversion Hcur as [|? ? Hcx Hcr]; subst. destruct Hsorted as [Hx Hr].
    cbn [merge_from].
    pose proof (py_max_bounds (snd cur) (snd x)) as [Hm1 Hm2].
    destruct (fst x - snd cur <? 0.15).
    + set (cur' := (fst cur, py_max (snd cur) (snd x))).
      assert (Hs' : sorted_by_start (cur' :: r)) by (split; assumption).
      destruct Hz as [<- | [<- | Hz]].
      * destruct (IH cur' Hs' cur' (or_introl eq_refl)) as (y & Hy & H1 & H2).
        exists y. split; [exact Hy|]. unfold cur' in *. cbn [fst snd] in *.
        split; lra.
      * destruct (IH cur' Hs' cur' (or_introl eq_refl)) as (y & Hy & H1 & H2).
        exists y. split; [exact Hy|]. unfold cur' in *. cbn [fst snd] in *.
        split; lra.
      * apply (IH cur' Hs' z). right. exact Hz.
    + destruct Hz as [<- | Hz].
      * exists cur. split; [left; reflexivity|]. split; lra.
      * destruct (IH x (conj Hx Hr) z Hz) as (y & Hy & H).
        exists y. split; [right; exact Hy | exact H].
Qed.

(** X5. Merging loses no speech: every segment the detector gave lies
    inside one of the merged segments. *)
Theorem merge_timeline_covers (timeline : list seg) :
  Forall (fun z => exists y, In y (merge_timeline timeline) /\ inside z y) timeline.
Proof.
  rewrite Forall_forall. intros z Hz. unfold merge_timeline.
  apply sort_segs_In in Hz. pose proof (sort_segs_sorted timeline) as Hs.
  destruct (sort_segs timeline) as [|x r]; [contradiction|].
  rewrite merge_pass_cons. apply merge_from_covers; assumption.
Qed.

(** The tiling of the clip by silences and speech (stated for reuse). *)
Lemma cover_count_silences (T : Q) (speech : list seg) (t : Q) :
  0 < T ->
  contained T speech ->
  sorted_disjoint speech ->
  cover_count t (silences_from_speech speech T ++ speech)
  = if (0 <=? t) && (t <? T) then 1%nat else 0%nat.
Proof.
  intros HT Hin Hsd. destruct speech as [|x r].
  - cbn [silences_from_speech app]. rewrite cover_count_single.
    unfold covers. cbn [fst snd]. reflexivity.
  - pose proof (contained_well_formed T _ Hin) as Hwf.
    destruct (gaps_fill_chain t r x Hwf Hsd) as [Hle Hcnt].
    pose proof (Forall_last _ r x Hin) as (_ & _ & HlastT).
    assert (H0 : 0 <= fst x) by (inversion Hin as [|? ? (H & _) _]; exact H).
    unfold silences_from_speech. cbn [tl].
    set (L := snd (last (x :: r) x)) in *.
    set (gaps := flat_map gap_between (combine (x :: r) r)) in *.
    set (a := cover_count t gaps) in *.
    set (b := cover_count t (x :: r)) in *.
    assert (Hsum :
      forall lead trail : list seg,
        Nat.add (Nat.add (cover_count t lead) (cover_count t trail))
                (if (fst x <=? t) && (t <? L) then 1%nat else 0%nat)
        = (if (0 <=? t) && (t <? T) then 1%nat else 0%nat) ->
        cover_count t (((lead ++ gaps) ++ trail) ++ x :: r)
        = if (0 <=? t) && (t <? T) then 1%nat else 0%nat).
    { intros lead trail H. rewrite !cover_count_app. fold a b. lia. }
    destruct (0 <? fst x) eqn:Elead; destruct (L <? T) eqn:Etrail;
      [ apply (Hsum [(0, fst x)] [(L, T)])
      | rewrite <- (app_nil_r (_ ++ gaps)); apply (Hsum [(0, fst x)] [])
      | apply (Hsum [] [(L, T)])
      | rewrite <- (app_nil_r (_ ++ gaps)); apply (Hsum [] []) ];
      rewrite ?cover_count_single; unfold covers, cover_count;
      cbn [fst snd filter List.length];
      qcases; cbn; try reflexivity; exfalso; lra.
Qed.

(** X6. Detection, merging and silence derivation fit together: when
    the detector's segments are well formed and lie in [[0, T]], every
    instant of the clip is in exactly one merged speech segment or
    derived silence, and no instant outside the clip is in any. *)
Theorem merged_speech_and_silences_tile (T : Q) (timeline : list seg) (t : Q) :
  0 < T ->
  contained T timeline ->
  cover_count t (silences_from_speech (merge_timeline timeline) T
                 ++ merge_timeline timeline)
  = if (0 <=? t) && (t <? T) then 1%nat else 0%nat.
Proof.
  intros HT Hin.
  destruct (merge_timeline_in_order_aux T timeline Hin) as (Hc & Hsd & _).
  apply cover_count_silences; assumption.
Qed.

Lemma merged_speech_and_silences_tile_witness :
  cover_count 2.1 (silences_from_speech (merge_timeline [(2.5, 4); (1, 2); (2.05, 2.2)]) 6
                   ++ merge_timeline [(2.5, 4); (1, 2); (2.05, 2.2)])
  = 1%nat.
Proof.
  apply (merged_speech_and_silences_tile 6 [(2.5, 4); (1, 2); (2.05, 2.2)] 2.1).
  - reflexivity.
  - repeat constructor; cbn; discriminate.
Defined.

(** ** Silences and the pause ratio *)

Lemma fold_Qplus_acc (l : list Q) :
  forall a, fold_left Qplus l a == a + fold_left Qplus l 0.
Proof.
  induction l as [|x l IH]; intros a; simpl.
  - ring.
  - rewrite (IH (a + x)), (IH (0 + x)). ring.
Qed.

Lemma sum_lengths_cons (x : seg) (l : list seg) :
  sum_lengths (x :: l) == (snd x - fst x) + sum_lengths l.
Proof.
  unfold sum_lengths. simpl. rewrite fold_Qplus_acc. ring.
Qed.

Lemma sum_lengths_app (l1 l2 : list seg) :
  sum_lengths (l1 ++ l2) == sum_lengths l1 + sum_lengths l2.
Proof.
  induction l1 as [|x l IH].
  - unfold sum_lengths at 2. simpl. ring.
  - change ((x :: l) ++ l2) with (x :: (l ++ l2)).
    rewrite !sum_lengths_cons, IH. ring.
Qed.

Lemma sum_lengths_nonneg (l : list seg) :
  Forall (fun y => fst y <= snd y) l -> 0 <= sum_lengths l.
Proof.
  induction 1 as [|x l Hx _ IH].
  - unfold sum_lengths. simpl. lra.
  - rewrite sum_lengths_cons. lra.
Qed.

Lemma gaps_lengths_chain (r : list seg) :
  forall x,
    sorted_disjoint (x :: r) ->
    sum_lengths (flat_map gap_between (combine (x :: r) r)) + sum_lengths (x :: r)
    == snd (last (x :: r) x) - fst x.
Proof.
  induction r as [|y r IH]; intros x Hsd.
  - cbn [combine flat_map last]. rewrite sum_lengths_cons.
    unfold sum_lengths. simpl. ring.
  - destruct Hsd as [Hxy Hsd']. specialize (IH y Hsd').
    change (last (x :: y :: r) x) with (last (y :: r) x).
    rewrite (last_cons_default r y x y).
    change (combine (x :: y :: r) (y :: r)) with ((x, y) :: combine (y :: r) r).
    cbn [flat_map]. rewrite sum_lengths_app, (sum_lengths_cons x).
    assert (Hgap : sum_lengths (gap_between (x, y)) == fst y - snd x).
    { destruct x as [sx ex], y as [sy ey]. unfold gap_between. cbn [fst snd] in *.
      destruct (ex <? sy) eqn:E; qtest_hyps.
      - rewrite sum_lengths_cons. unfold sum_lengths. simpl. ring.
      - unfold sum_lengths. simpl. lra. }
    rewrite Hgap. lra.
Qed.

Lemma silences_positive (speech : list seg) (T : Q) :
  speech <> [] \/ 0 < T ->
  Forall (fun x => fst x < snd x) (silences_from_speech speech T).
Proof.
  intros H. destruct speech as [|x r].
  - destruct H as [H | H]; [contradiction|]. repeat constructor. exact H.
  - clear H. unfold silences_from_speech. cbn [tl].
    assert (Hgaps : Forall (fun g => fst g < snd g)
                      (flat_map gap_between (combine (x :: r) r))).
    { rewrite Forall_forall. intros g Hg. apply in_flat_map in Hg.
      destruct Hg as ([[s1 e1] [s2 e2]] & _ & Hg). unfold gap_between in Hg.
      destruct (e1 <? s2) eqn:E; [|contradiction].
      destruct Hg as [<- | []]. qtest_hyps. exact E. }
    destruct (0 <? fst x) eqn:E1; destruct (snd (last (x :: r) x) <? T) eqn:E2;
      qtest_hyps; repeat (apply Forall_app; split); try exact Hgaps;
      repeat constructor; assumption.
Qed.

Lemma silences_count (speech : list seg) (T : Q) :
  (List.length (silences_from_speech speech T) <= S (List.length speech))%nat.
Proof.
  destruct speech as [|x r]; [simpl; lia|].
  unfold silences_from_speech. cbn [tl].
  assert (Hgaps : forall l1 l2 : list seg,
             (List.length (flat_map gap_between (combine l1 l2)) <= List.length l2)%nat).
  { induction l1 as [|a l1 IH]; intros [|b l2]; simpl; try lia.
    rewrite length_app. specialize (IH l2).
    set (n := List.length (flat_map gap_between (combine l1 l2))) in *.
    destruct a as [s1 e1], b as [s2 e2]. unfold gap_between.
    destruct (e1 <? s2); simpl; lia. }
  specialize (Hgaps (x :: r) r).
  set (gaps := flat_map gap_between (combine (x :: r) r)) in *.
  clearbody gaps.
  destruct (0 <? fst x); destruct (snd (last (x :: r) x) <? T);
    rewrite ?length_app; cbn [List.length app]; unfold seg in *; lia.
Qed.

(** X7. Every derived silence has a positive length (for an empty
    speech list when the clip has one), and there is at most one silence
    more than there are speech segments. *)
Theorem silences_from_speech_shape (speech : list seg) (T : Q) :
  speech <> [] \/ 0 < T ->
  Forall (fun x => fst x < snd x) (silences_from_speech speech T)
  /\ (List.length (silences_from_speech speech T) <= S (List.length speech))%nat.
Proof.
  intros H. split; [apply silences_positive, H | apply silences_count].
Qed.

Lemma silences_from_speech_shape_witness :
  Forall (fun x => fst x < snd x) (silences_from_speech [(1, 2); (2.5, 4)] 6)
  /\ Nat.le (List.length (silences_from_speech [(1, 2); (2.5, 4)] 6)) 3.
Proof.
  apply (silences_from_speech_shape [(1, 2); (2.5, 4)] 6).
  left. discriminate.
Defined.

Lemma silence_and_speech_time_aux (T : Q) (speech : list seg) :
  contained T speech ->
  sorted_disjoint speech ->
  sum_lengths (silences_from_speech speech T) + sum_lengths speech == T.
Proof.
  intros Hin Hsd. destruct speech as [|x r].
  - unfold silences_from_speech, sum_lengths. simpl. ring.
  - pose proof (gaps_lengths_chain r x Hsd) as Hchain.
    pose proof (Forall_last _ r x Hin) as (_ & _ & HlastT).
    assert (H0 : 0 <= fst x) by (inversion Hin as [|? ? (H & _) _]; exact H).
    unfold silences_from_speech. cbn [tl].
    set (L := snd (last (x :: r) x)) in *.
    set (gaps := flat_map gap_between (combine (x :: r) r)) in *.
    assert (Hnil : sum_lengths [] == 0) by reflexivity.
    assert (Hone : forall a : seg, sum_lengths [a] == snd a - fst a).
    { intros a. rewrite sum_lengths_cons, Hnil. ring. }
    destruct (0 <? fst x) eqn:E1; destruct (L <? T) eqn:E2; qtest_hyps;
      rewrite ?sum_lengths_app, ?Hone, ?Hnil; cbn [fst snd]; lra.
Qed.

(** X8. For speech segments in time order inside [[0, T]], the lengths
    of the derived silences and of the speech segments add up to the
    length of the clip. *)
Theorem silence_and_speech_time (T : Q) (speech : list seg) :
  contained T speech ->
  sorted_disjoint speech ->
  sum_lengths (silences_from_speech speech T) + sum_lengths speech == T.
Proof. apply silence_and_speech_time_aux. Qed.

Lemma silence_and_speech_time_witness :
  sum_lengths (silences_from_speech [(1, 2); (2.5, 4)] 6)
  + sum_lengths [(1, 2); (2.5, 4)] == 6.
Proof.
  apply (silence_and_speech_time 6 [(1, 2); (2.5, 4)]).
  - repeat constructor; cbn; discriminate.
  - cbn. repeat split; discriminate.
Defined.

(** ** The evaluation, case by case *)

(** [process_one] ends as [evaluation_outcome] says. *)
Lemma process_one_outcome (np_sqrt : Q -> Q)
    (np_arange_len : Q -> Q -> Q -> nat) (env : Env)
    (path vad_model : string) (hf_token : option string)
    (device compute_type asr_model : string) (use_prosody : bool)
    (long_pause_sec mlfr_pause_sec : Q) :
  snd (process_one np_sqrt np_arange_len env path vad_model hf_token device compute_type
         asr_model use_prosody long_pause_sec mlfr_pause_sec)
  = evaluation_outcome np_sqrt np_arange_len env use_prosody long_pause_sec mlfr_pause_sec.
Proof.
  destruct env as [dur vad asr pros].
  unfold evaluation_outcome, features_with_vad, features_without_vad,
    prosody_pair, counted_words.
  run_process_one.
  cbn [soundfile_duration pyannote_timeline whisper_words librosa_prosody].
  destruct dur as [e|total]; [reflexivity|].
  destruct (total =? 0); [reflexivity|].
  destruct vad as [ev|timeline]; destruct asr as [ea|raw];
    cbn [app fst snd List.length filter];
    try (destruct (filter has_alpha (collect_words raw)) as [|w ws]);
    cbn [List.length Nat.ltb Nat.leb];
    try reflexivity;
    (destruct use_prosody; [destruct pros as [ep|[f0 rms]]|]); reflexivity.
Qed.

(** X9. [process_one] lets exactly two failures through: the one of the
    duration reader, and the unbound [silences] when the detector raised
    on audio of nonzero duration and at least one word was counted.  A
    failure of the recognizer or of the prosody analysis never reaches
    the caller. *)
Theorem process_one_raises_iff (np_sqrt : Q -> Q)
    (np_arange_len : Q -> Q -> Q -> nat) (env : Env)
    (path vad_model : string) (hf_token : option string)
    (device compute_type asr_model : string) (use_prosody : bool)
    (long_pause_sec mlfr_pause_sec : Q) (e : exn) :
  snd (process_one np_sqrt np_arange_len env path vad_model hf_token device compute_type
         asr_model use_prosody long_pause_sec mlfr_pause_sec) = inl e
  <->
  (soundfile_duration env = inl e
   \/ exists total ev,
        soundfile_duration env = inr total /\ ~ total == 0
        /\ pyannote_timeline env = inl ev
        /\ counted_words env <> []
        /\ e = UnboundLocalError "silences").
Proof.
  rewrite process_one_outcome. unfold evaluation_outcome.
  destruct (soundfile_duration env) as [e0|total].
  - split.
    + intros H. left. congruence.
    + intros [H | (total & ev & H & _)]; [congruence | discriminate].
  - destruct (total =? 0) eqn:E0; qtest_hyps.
    + split; [discriminate|].
      intros [H | (total' & ev & H & Hnz & _)]; [discriminate|].
      injection H as <-. contradiction.
    + destruct (pyannote_timeline env) as [ev|timeline].
      * destruct (counted_words env) as [|w ws].
        -- split; [discriminate|].
           intros [H | (total' & ev' & _ & _ & _ & Hne & _)];
             [discriminate | contradiction].
        -- split.
           ++ intros H. injection H as <-. right. exists total, ev.
              repeat split; auto. discriminate.
           ++ intros [H | (total' & ev' & _ & _ & _ & _ & ->)];
                [discriminate | reflexivity].
      * split; [discriminate|].
        intros [H | (total' & ev' & _ & _ & H & _)]; discriminate.
Qed.

(** X10. When the recognizer raises (on audio of nonzero duration whose
    detector answered), the evaluation still returns a scored result: no
    word is counted, and the speech rate, articulation rate, long-pause
    frequency, mean run length and rate stability are all 0. *)
Theorem process_one_asr_failure (np_sqrt : Q -> Q)
    (np_arange_len : Q -> Q -> Q -> nat) (env : Env)
    (path vad_model : string) (hf_token : option string)
    (device compute_type asr_model : string) (use_prosody : bool)
    (long_pause_sec mlfr_pause_sec total : Q) (timeline : list seg) (ea : exn) :
  soundfile_duration env = inr total ->
  ~ total == 0 ->
  pyannote_timeline env = inr timeline ->
  whisper_words env = inl ea ->
  exists r,
    snd (process_one np_sqrt np_arange_len env path vad_model hf_token device compute_type
           asr_model use_prosody long_pause_sec mlfr_pause_sec) = inr (Scored r)
    /\ N_words r = 0%nat
    /\ SR r == 0 /\ AR r == 0 /\ LPF r == 0 /\ MLFR r == 0 /\ RateSD r == 0
    /\ In (Print ("ASR failed for " ++ path ++ ": " ++ exn_str ea))
          (fst (process_one np_sqrt np_arange_len env path vad_model hf_token device compute_type
                  asr_model use_prosody long_pause_sec mlfr_pause_sec)).
Proof.
  intros Hdur Hnz Hvad Hasr.
  rewrite process_one_outcome. unfold evaluation_outcome, counted_words.
  apply Qeqb_neq in Hnz. rewrite Hdur, Hnz, Hvad, Hasr.
  eexists. split; [reflexivity|].
  unfold features_with_vad, counted_words. rewrite Hasr.
  cbn [scoring_stage N_words SR AR LPF MLFR RateSD f_SR f_AR f_LPF f_MLFR f_RateSD
       List.length Nat.ltb Nat.leb mlfr rate_stability].
  assert (Hw : forall d, words_per_min 0 d == 0).
  { intros d. unfold words_per_min. destruct (d <=? 1e-6); [reflexivity|].
    unfold Qnat. cbn [Z.of_nat inject_Z]. unfold Qdiv. ring. }
  repeat split; try reflexivity; try apply Hw.
  - destruct (0 <? sum_lengths (merge_timeline timeline)); [apply Hw | reflexivity].
  - destruct env as [dur vad asr pros].
    cbn [soundfile_duration pyannote_timeline whisper_words] in *. subst.
    run_process_one.
    cbn [soundfile_duration pyannote_timeline whisper_words librosa_prosody].
    rewrite Hnz.
    destruct use_prosody; [destruct pros as [ep|[f0 rms]]|];
      cbn; auto 10.
Qed.

Lemma process_one_asr_failure_witness :
  exists r,
    snd (process_one sqrt_milli arange_len_exact
           (mkEnv (inr 20) (inr [(0.5, 2.0)]) (inl (ExternalError "decode error"))
                  (inr (0.0, 0.0)))
           "clip.wav" "pyannote/voice-activity-detection" None "cpu" "int8"
           "small.en" false 0.7 0.25) = inr (Scored r)
    /\ N_words r = 0%nat
    /\ SR r == 0 /\ AR r == 0 /\ LPF r == 0 /\ MLFR r == 0 /\ RateSD r == 0
    /\ In (Print ("ASR failed for " ++ "clip.wav" ++ ": " ++ exn_str (ExternalError "decode error")))
          (fst (process_one sqrt_milli arange_len_exact
                  (mkEnv (inr 20) (inr [(0.5, 2.0)]) (inl (ExternalError "decode error"))
                         (inr (0.0, 0.0)))
                  "clip.wav" "pyannote/voice-activity-detection" None "cpu" "int8"
                  "small.en" false 0.7 0.25)).
Proof.
  apply (process_one_asr_failure sqrt_milli arange_len_exact _ "clip.wav"
           "pyannote/voice-activity-detection" None "cpu" "int8" "small.en"
           false 0.7 0.25 20 [(0.5, 2.0)] (ExternalError "decode error")).
  - reflexivity.
  - discriminate.
  - reflexivity.
  - reflexivity.
Defined.

Lemma merged_speech_time (T : Q) (timeline : list seg) :
  0 <= T ->
  contained T timeline ->
  0 <= sum_lengths (merge_timeline timeline)
  /\ sum_lengths (merge_timeline timeline) <= T
  /\ T - sum_lengths (merge_timeline timeline)
     == sum_lengths (silences_from_speech (merge_timeline timeline) T).
Proof.
  intros HT Hin.
  destruct (merge_timeline_in_order_aux T timeline Hin) as (Hc & Hsd & _).
  pose proof (silence_and_speech_time_aux T _ Hc Hsd) as Hsum.
  pose proof (sum_lengths_nonneg _ (contained_well_formed T _ Hc)) as H0.
  assert (Hs : 0 <= sum_lengths (silences_from_speech (merge_timeline timeline) T)).
  { destruct (merge_timeline timeline) as [|x r] eqn:E.
    - unfold silences_from_speech, sum_lengths in *. simpl in *. lra.
    - apply sum_lengths_nonneg.
      assert (Hp : Forall (fun s => fst s < snd s) (silences_from_speech (x :: r) T))
        by (apply silences_positive; left; discriminate).
      revert Hp. apply Forall_impl. intros a Ha. lra. }
  repeat split; lra.
Qed.

(** X11. When the detector's segments are well formed and lie inside
    the clip, the pause ratio of the evaluation is a ratio: it lies
    between 0 and 1, and it is the total length of the derived silences
    over the duration (0 for a duration of at most one microsecond). *)
Theorem process_one_pause_ratio (np_sqrt : Q -> Q)
    (np_arange_len : Q -> Q -> Q -> nat) (env : Env)
    (path vad_model : string) (hf_token : option string)
    (device compute_type asr_model : string) (use_prosody : bool)
    (long_pause_sec mlfr_pause_sec total : Q) (timeline : list seg) :
  soundfile_duration env = inr total ->
  ~ total == 0 ->
  pyannote_timeline env = inr timeline ->
  contained total timeline ->
  exists r,
    snd (process_one np_sqrt np_arange_len env path vad_model hf_token device compute_type
           asr_model use_prosody long_pause_sec mlfr_pause_sec) = inr (Scored r)
    /\ 0 <= PR r <= 1
    /\ PR r == (if total <=? 1e-6 then 0
                else sum_lengths (silences_from_speech (merge_timeline timeline) total)
                     / total).
Proof.
  intros Hdur Hnz Hvad Hin.
  rewrite process_one_outcome. unfold evaluation_outcome.
  apply Qeqb_neq in Hnz. rewrite Hdur, Hnz, Hvad.
  eexists. split; [reflexivity|].
  cbn [scoring_stage PR features_with_vad f_PR].
  destruct (total <=? 1e-6) eqn:E; qtest_hyps.
  - split; [split; lra | reflexivity].
  - assert (Hmicro : 0 < 1e-6) by reflexivity.
    assert (Hpos : 0 < total) by lra.
    destruct (merged_speech_time total timeline (Qlt_le_weak _ _ Hpos) Hin)
      as (H0 & H1 & Hsil).
    split.
    + split.
      * apply Qle_shift_div_l; [exact Hpos | lra].
      * apply Qle_shift_div_r; [exact Hpos | lra].
    + rewrite Hsil. reflexivity.
Qed.

Lemma process_one_pause_ratio_witness :
  exists r,
    snd (process_one sqrt_milli arange_len_exact env_three_words "clip.wav"
           "pyannote/voice-activity-detection" None "cpu" "int8" "small.en"
           true 0.7 0.25) = inr (Scored r)
    /\ 0 <= PR r <= 1
    /\ PR r == (if 20 <=? 1e-6 then 0
                else sum_lengths
                       (silences_from_speech
                          (merge_timeline [(0.5, 2.0); (2.1, 3.0); (6.0, 9.0)]) 20)
                     / 20).
Proof.
  apply (process_one_pause_ratio sqrt_milli arange_len_exact env_three_words "clip.wav"
           "pyannote/voice-activity-detection" None "cpu" "int8" "small.en"
           true 0.7 0.25 20 [(0.5, 2.0); (2.1, 3.0); (6.0, 9.0)]).
  - reflexivity.
  - discriminate.
  - reflexivity.
  - repeat constructor; cbn; discriminate.
Defined.

(** X12. The scores an evaluation returns can be recomputed from the
    features it returns: the timing score is the weighted sum of the six
    sub-scores, the fluency is the timing score (with prosody: 0.70 of it
    plus 0.30 of the mean of the two prosody sub-scores), the level is
    the level of the fluency, and the prosody score is absent exactly
    when prosody was not requested. *)
Theorem process_one_scores_from_features (np_sqrt : Q -> Q)
    (np_arange_len : Q -> Q -> Q -> nat) (env : Env)
    (path vad_model : string) (hf_token : option string)
    (device compute_type asr_model : string) (use_prosody : bool)
    (long_pause_sec mlfr_pause_sec : Q) (r : ScoreResult) :
  snd (process_one np_sqrt np_arange_len env path vad_model hf_token device compute_type
         asr_model use_prosody long_pause_sec mlfr_pause_sec) = inr (Scored r) ->
  Timing_Score r
  = 0.25 * score_metric (SR r) "SR" + 0.20 * score_metric (AR r) "AR"
    + 0.15 * score_metric (PR r) "PR" + 0.20 * score_metric (MLFR r) "MLFR"
    + 0.10 * score_metric (LPF r) "LPF" + 0.10 * score_metric (RateSD r) "RateSD"
  /\ Fluency r
     = (if use_prosody
        then 0.70 * Timing_Score r
             + 0.30 * (0.5 * score_metric (F0_IQR r) "F0_IQR"
                       + 0.5 * score_metric (RMS_IQR r) "RMS_IQR")
        else Timing_Score r)
  /\ Level r = level_from_score_new (Fluency r)
  /\ (Prosody_Score r = None <-> use_prosody = false)
  /\ soundfile_duration env = inr (Duration r)
  /\ N_words r = List.length (counted_words env).
Proof.
  rewrite process_one_outcome. unfold evaluation_outcome.
  destruct (soundfile_duration env) as [e0|total]; [discriminate|].
  destruct (total =? 0); [discriminate|].
  assert (Hstage : forall feats n,
    r = scoring_stage feats use_prosody n total ->
    Timing_Score r
    = 0.25 * score_metric (SR r) "SR" + 0.20 * score_metric (AR r) "AR"
      + 0.15 * score_metric (PR r) "PR" + 0.20 * score_metric (MLFR r) "MLFR"
      + 0.10 * score_metric (LPF r) "LPF" + 0.10 * score_metric (RateSD r) "RateSD"
    /\ Fluency r
       = (if use_prosody
          then 0.70 * Timing_Score r
               + 0.30 * (0.5 * score_metric (F0_IQR r) "F0_IQR"
                         + 0.5 * score_metric (RMS_IQR r) "RMS_IQR")
          else Timing_Score r)
    /\ Level r = level_from_score_new (Fluency r)
    /\ (Prosody_Score r = None <-> use_prosody = false)
    /\ inr total = inr (Duration r) :> exn + Q
    /\ N_words r = n).
  { intros feats n ->. unfold scoring_stage.
    cbn [Timing_Score Fluency Level Prosody_Score Duration N_words
         SR AR PR LPF MLFR RateSD F0_IQR RMS_IQR].
    repeat split; try reflexivity;
      destruct use_prosody; try reflexivity; try discriminate. }
  destruct (pyannote_timeline env) as [ev|timeline].
  - destruct (counted_words env) as [|w ws]; [|discriminate].
    intros H. injection H as <-. eapply Hstage. reflexivity.
  - intros H. injection H as <-. eapply Hstage. reflexivity.
Qed.

Lemma process_one_scores_from_features_witness :
  match three_words_result with
  | Scored r =>
      Level r = level_from_score_new (Fluency r)
      /\ N_words r = List.length (counted_words env_three_words)
  | InvalidAudio _ _ _ => True
  end.
Proof.
  pose proof (process_one_scores_from_features sqrt_milli arange_len_exact env_three_words "clip.wav"
           "pyannote/voice-activity-detection" None "cpu" "int8" "small.en"
           true 0.7 0.25) as H.
  destruct three_words_result as [| r] eqn:E; [exact I|].
  destruct (H r) as (_ & _ & HL & _ & _ & HN).
  - vm_compute in E. injection E as <-. vm_compute. reflexivity.
  - split; assumption.
Defined.

(** ** The prototype and the backend *)

Ltac run_prototype :=
  unfold Prototype.process_one, duration_from_path, run_pyannote_vad,
    run_whisperx_words, prosody_iqrs, external, bind, ret.

(** X13. The prototype [process_one] has no fallback: it returns exactly
    when the duration reader, the detector and the recognizer all answer
    (and the prosody analysis too, when requested); any failure of one
    of them reaches the caller. *)
Theorem prototype_returns_iff (np_sqrt : Q -> Q)
    (np_arange_len : Q -> Q -> Q -> nat) (env : Env)
    (path vad_model : string) (hf_token : option string)
    (device compute_type asr_model : string) (use_prosody : bool)
    (long_pause_sec mlfr_pause_sec : Q) :
  (exists row,
      snd (Prototype.process_one np_sqrt np_arange_len env path vad_model hf_token device
             compute_type asr_model use_prosody long_pause_sec mlfr_pause_sec)
      = inr row)
  <->
  ((exists total, soundfile_duration env = inr total)
   /\ (exists timeline, pyannote_timeline env = inr timeline)
   /\ (exists raw, whisper_words env = inr raw)
   /\ (use_prosody = true -> exists p, librosa_prosody env = inr p)).
Proof.
  destruct env as [dur vad asr pros]. run_prototype.
  cbn [soundfile_duration pyannote_timeline whisper_words librosa_prosody].
  destruct dur as [e|total]; cbn [snd].
  { split; [intros (row & H); discriminate|].
    intros ((t & H) & _). discriminate. }
  destruct vad as [e|timeline]; cbn [snd].
  { split; [intros (row & H); discriminate|].
    intros (_ & (t & H) & _). discriminate. }
  destruct asr as [e|raw]; cbn [snd].
  { split; [intros (row & H); discriminate|].
    intros (_ & _ & (t & H) & _). discriminate. }
  destruct use_prosody; [destruct pros as [e|[f0 rms]]|]; cbn [snd].
  - split; [intros (row & H); discriminate|].
    intros (_ & _ & _ & H). destruct (H eq_refl) as (p & Hp). discriminate.
  - split; [|intros _; eexists; reflexivity].
    intros _. repeat split; eauto.
  - split; [|intros _; eexists; reflexivity].
    intros _. repeat split; eauto. discriminate.
Qed.

(** X14. In the prototype the long-pause frequency does not depend on
    the words: whenever it returns, [LPF] is the number of derived
    silences at least [long_pause_sec] long over the duration in minutes
    (0 for a duration of at most one microsecond). *)
Theorem prototype_lpf (np_sqrt : Q -> Q)
    (np_arange_len : Q -> Q -> Q -> nat) (env : Env)
    (path vad_model : string) (hf_token : option string)
    (device compute_type asr_model : string) (use_prosody : bool)
    (long_pause_sec mlfr_pause_sec : Q) (row : Prototype.FeatureRow) :
  snd (Prototype.process_one np_sqrt np_arange_len env path vad_model hf_token device
         compute_type asr_model use_prosody long_pause_sec mlfr_pause_sec)
  = inr row ->
  exists timeline,
    pyannote_timeline env = inr timeline
    /\ soundfile_duration env = inr (Prototype.Duration row)
    /\ Prototype.LPF row
       = long_pause_rate
           (silences_from_speech (merge_timeline timeline) (Prototype.Duration row))
           long_pause_sec (Prototype.Duration row).
Proof.
  destruct env as [dur vad asr pros]. run_prototype.
  cbn [soundfile_duration pyannote_timeline whisper_words librosa_prosody].
  destruct dur as [e|total]; [discriminate|].
  destruct vad as [e|timeline]; [discriminate|].
  destruct asr as [e|raw]; [discriminate|].
  intros H. exists timeline.
  destruct use_prosody; [destruct pros as [e|[f0 rms]]|];
    cbn [snd app] in H; try discriminate;
    injection H as <-; cbn [Prototype.Duration Prototype.LPF];
    rewrite long_pause_freq_rate; repeat split; reflexivity.
Qed.

Lemma prototype_lpf_witness :
  exists timeline,
    pyannote_timeline env_silent_minute = inr timeline
    /\ soundfile_duration env_silent_minute
       = inr (Prototype.Duration silent_minute_row)
    /\ Prototype.LPF silent_minute_row
       = long_pause_rate
           (silences_from_speech (merge_timeline timeline)
              (Prototype.Duration silent_minute_row))
           0.7 (Prototype.Duration silent_minute_row).
Proof.
  apply (prototype_lpf sqrt_milli arange_len_exact env_silent_minute "quiet.wav"
           "pyannote/voice-activity-detection" None "cpu" "int8" "small.en"
           false 0.7 0.25 silent_minute_row).
  vm_compute. reflexivity.
Defined.

(** X15. Where the prototype returns on audio of nonzero duration, the
    backend returns too, with the same duration, word count and
    features; only [LPF] differs, being 0.0 in the backend when no word
    is counted. *)
Theorem backend_agrees_with_prototype (np_sqrt : Q -> Q)
    (np_arange_len : Q -> Q -> Q -> nat) (env : Env)
    (path vad_model : string) (hf_token : option string)
    (device compute_type asr_model : string) (use_prosody : bool)
    (long_pause_sec mlfr_pause_sec : Q) (row : Prototype.FeatureRow) :
  snd (Prototype.process_one np_sqrt np_arange_len env path vad_model hf_token device
         compute_type asr_model use_prosody long_pause_sec mlfr_pause_sec)
  = inr row ->
  ~ Prototype.Duration row == 0 ->
  exists r,
    snd (process_one np_sqrt np_arange_len env path vad_model hf_token device compute_type
           asr_model use_prosody long_pause_sec mlfr_pause_sec) = inr (Scored r)
    /\ Duration r = Prototype.Duration row
    /\ N_words r = Prototype.N_words row
    /\ SR r = Prototype.SR row /\ AR r = Prototype.AR row
    /\ PR r = Prototype.PR row
    /\ MLFR r = Prototype.MLFR row /\ RateSD r = Prototype.RateSD row
    /\ F0_IQR r = Prototype.F0_IQR row /\ RMS_IQR r = Prototype.RMS_IQR row
    /\ LPF r = match Prototype.N_words row with
               | O => 0.0
               | S _ => Prototype.LPF row
               end.
Proof.
  rewrite process_one_outcome. unfold evaluation_outcome, features_with_vad,
    prosody_pair, counted_words.
  destruct env as [dur vad asr pros]. run_prototype.
  cbn [soundfile_duration pyannote_timeline whisper_words librosa_prosody].
  destruct dur as [e|total]; [discriminate|].
  destruct vad as [e|timeline]; [discriminate|].
  destruct asr as [e|raw]; [discriminate|].
  intros H Hnz.
  destruct use_prosody; [destruct pros as [e|[f0 rms]]|];
    cbn [snd app] in H; try discriminate;
    injection H as <-; cbn [Prototype.Duration] in Hnz;
    apply Qeqb_neq in Hnz; rewrite Hnz;
    (eexists; split; [reflexivity|]);
    cbn [scoring_stage Duration N_words SR AR PR LPF MLFR RateSD F0_IQR RMS_IQR
         f_SR f_AR f_PR f_LPF f_MLFR f_RateSD f_F0_IQR f_RMS_IQR fst snd
         Prototype.Duration Prototype.N_words Prototype.SR Prototype.AR
         Prototype.PR Prototype.LPF Prototype.MLFR Prototype.RateSD
         Prototype.F0_IQR Prototype.RMS_IQR];
    repeat split; try reflexivity;
    destruct (List.length (filter has_alpha (collect_words raw))); reflexivity.
Qed.

Lemma backend_agrees_with_prototype_witness :
  exists r,
    snd (process_one sqrt_milli arange_len_exact
           (mkEnv (inr 20) (inr [(0.5, 2.0); (2.1, 3.0); (6.0, 9.0)])
                  (whisper_words env_three_words) (inr (0.0, 0.0)))
           "clip.wav" "pyannote/voice-activity-detection" None "cpu" "int8"
           "small.en" false 0.7 0.25) = inr (Scored r)
    /\ Duration r = Prototype.Duration three_words_row
    /\ N_words r = Prototype.N_words three_words_row
    /\ SR r = Prototype.SR three_words_row /\ AR r = Prototype.AR three_words_row
    /\ PR r = Prototype.PR three_words_row
    /\ MLFR r = Prototype.MLFR three_words_row
    /\ RateSD r = Prototype.RateSD three_words_row
    /\ F0_IQR r = Prototype.F0_IQR three_words_row
    /\ RMS_IQR r = Prototype.RMS_IQR three_words_row
    /\ LPF r = match Prototype.N_words three_words_row with
               | O => 0.0
               | S _ => Prototype.LPF three_words_row
               end.
Proof.
  apply (backend_agrees_with_prototype sqrt_milli arange_len_exact _ "clip.wav"
           "pyannote/voice-activity-detection" None "cpu" "int8" "small.en"
           false 0.7 0.25 three_words_row).
  - vm_compute. reflexivity.
  - vm_compute. discriminate.
Defined.

(** ** Bounds on the features *)

Lemma fold_add_acc (l : list nat) :
  forall a, fold_left Nat.add l a = (a + fold_left Nat.add l 0)%nat.
Proof.
  induction l as [|x l IH]; intros a; simpl; [lia|].
  rewrite (IH (a + x)%nat), (IH x). lia.
Qed.

Lemma split_runs_total (thr : Q) (rest : list Word) :
  forall prev,
    fold_left Nat.add (map (@List.length Word) (split_runs thr prev rest)) 0%nat
    = S (List.length rest)
    /\ Forall (fun n => (1 <= n)%nat)
              (map (@List.length Word) (split_runs thr prev rest))
    /\ split_runs thr prev rest <> [].
Proof.
  induction rest as [|w r IH]; intros prev.
  - cbn. split; [reflexivity | split; [repeat constructor | discriminate]].
  - destruct (IH w) as (Hsum & Hpos & Hne).
    cbn [split_runs]. destruct (thr <=? pause prev w).
    + cbn [map List.length fold_left]. rewrite fold_add_acc, Hsum.
      split; [cbn; lia | split; [constructor; [lia | exact Hpos] | discriminate]].
    + destruct (split_runs thr w r) as [|run runs]; [contradiction|].
      cbn [map List.length fold_left] in *. rewrite fold_add_acc in *.
      inversion Hpos; subst.
      split; [cbn in *; lia | split; [constructor; [lia | assumption] | discriminate]].
Qed.

Lemma Qnat_le (a b : nat) : (a <= b)%nat -> Qnat a <= Qnat b.
Proof.
  intros H. unfold Qnat. rewrite <- Zle_Qle. apply Nat2Z.inj_le, H.
Qed.

Lemma runs_count_le_total (l : list nat) :
  Forall (fun n => (1 <= n)%nat) l ->
  (List.length l <= fold_left Nat.add l 0)%nat.
Proof.
  induction 1 as [|x l Hx _ IH]; simpl; [lia|].
  rewrite fold_add_acc. lia.
Qed.

(** X16. For a non-empty word list, whatever the threshold: the run
    lengths [mlfr] averages are all at least 1 and add up to the number
    of words, so the mean run length lies between 1 and the number of
    words. *)
Theorem mlfr_bounds (words : list Word) (pause_thr : Q) :
  words <> [] ->
  fold_left Nat.add (mlfr_runs words pause_thr) 0%nat = List.length words
  /\ Forall (fun n => (1 <= n)%nat) (mlfr_runs words pause_thr)
  /\ 1 <= mlfr words pause_thr <= Qnat (List.length words).
Proof.
  intros Hne.
  assert (Hruns : fold_left Nat.add (mlfr_runs words pause_thr) 0%nat
                  = List.length words
                  /\ Forall (fun n => (1 <= n)%nat) (mlfr_runs words pause_thr)
                  /\ mlfr_runs words pause_thr <> []).
  { rewrite (mlfr_runs_split words pause_thr Hne). unfold fluent_runs.
    rewrite <- (sort_words_length words).
    destruct (sort_words words) as [|w r] eqn:Es.
    - apply (f_equal (@List.length Word)) in Es. rewrite sort_words_length in Es.
      destruct words; [contradiction | discriminate].
    - destruct (split_runs_total pause_thr r w) as (H1 & H2 & H3).
      repeat split; [exact H1 | exact H2 |].
      destruct (split_runs pause_thr w r); [contradiction | discriminate]. }
  destruct Hruns as (Hsum & Hpos & Hnonempty).
  split; [exact Hsum|]. split; [exact Hpos|].
  destruct words as [|w0 rest]; [contradiction|].
  unfold mlfr. destruct (mlfr_runs (w0 :: rest) pause_thr) as [|n runs] eqn:Er;
    [contradiction|].
  unfold np_mean. rewrite Hsum.
  pose proof (runs_count_le_total _ Hpos) as Hk. rewrite Hsum in Hk.
  set (k := List.length (n :: runs)) in *.
  assert (Hk1 : (1 <= k)%nat) by (unfold k; simpl; lia).
  pose proof (Qnat_le _ _ Hk1) as Hq1. pose proof (Qnat_le _ _ Hk) as Hqk.
  change (Qnat 1) with 1 in Hq1.
  set (N := Qnat (List.length (w0 :: rest))) in *.
  assert (Hkpos : 0 < Qnat k) by lra.
  split.
  - apply Qle_shift_div_l; [exact Hkpos | lra].
  - apply Qle_shift_div_r; [exact Hkpos|].
    assert (HN : 0 <= N) by lra. nra.
Qed.

Lemma mlfr_bounds_witness :
  fold_left Nat.add (mlfr_runs close_triple 0.1) 0%nat = List.length close_triple
  /\ Forall (fun n => (1 <= n)%nat) (mlfr_runs close_triple 0.1)
  /\ 1 <= mlfr close_triple 0.1 <= Qnat (List.length close_triple).
Proof.
  apply (mlfr_bounds close_triple 0.1). discriminate.
Defined.

(** ** The sub-score table *)

(** X17. A metric name outside the eight of the table gets the neutral
    sub-score 0.5, whatever the value. *)
Theorem score_metric_unknown_name (value : Q) (metric_name : string) :
  ~ In metric_name (TIMING ++ PROSODY) ->
  score_metric value metric_name = 0.5.
Proof.
  intros Hnot. unfold score_metric, TIMING, PROSODY in *. cbn [app In] in Hnot.
  repeat match goal with
  | |- context [String.eqb metric_name ?name] =>
      let E := fresh "E" in
      destruct (String.eqb metric_name name) eqn:E;
      [apply String.eqb_eq in E; exfalso; apply Hnot; rewrite E; tauto|]
  end.
  reflexivity.
Qed.

Lemma score_metric_unknown_name_witness :
  score_metric 42 "Pitch" = 0.5.
Proof.
  apply (score_metric_unknown_name 42 "Pitch").
  cbn. intros H. repeat (destruct H as [H | H]; [discriminate|]). exact H.
Defined.

Ltac threshold_cases :=
  repeat match goal with
  | |- context [?a <=? ?b] =>
      let E := fresh "E" in
      destruct (a <=? b) eqn:E; qtest_hyps; try (exfalso; lra)
  end.

(** X18. The table is monotone where the comments say so: a larger
    speech rate, articulation rate or mean run length never lowers its
    sub-score, and a larger long-pause frequency or rate deviation never
    raises its sub-score. *)
Theorem score_metric_monotone (v1 v2 : Q) :
  v1 <= v2 ->
  Forall (fun m => score_metric v1 m <= score_metric v2 m) ["SR"; "AR"; "MLFR"]%string
  /\ Forall (fun m => score_metric v2 m <= score_metric v1 m) ["LPF"; "RateSD"]%string.
Proof.
  intros H. split; repeat constructor;
    unfold score_metric; cbn [String.eqb Ascii.eqb Bool.eqb];
    threshold_cases; lra.
Qed.

Lemma score_metric_monotone_witness :
  Forall (fun m => score_metric 95 m <= score_metric 130 m) ["SR"; "AR"; "MLFR"]%string
  /\ Forall (fun m => score_metric 130 m <= score_metric 95 m) ["LPF"; "RateSD"]%string.
Proof.
  apply (score_metric_monotone 95 130). discriminate.
Defined.

(** ** Window counts on any word list *)






(** ** Long pauses and rates *)

Lemma filter_weaker_length {A} (f g : A -> bool) (l : list A) :
  (forall a, f a = true -> g a = true) ->
  (List.length (filter f l) <= List.length (filter g l))%nat.
Proof.
  intros H. induction l as [|a l IH]; simpl; [lia|].
  destruct (f a) eqn:Ef.
  - rewrite (H a Ef). simpl. lia.
  - destruct (g a); simpl; lia.
Qed.

(** X20. The long-pause frequency is never negative, and raising the
    pause threshold never raises it. *)
Theorem long_pause_freq_antitone (silences : list seg) (m1 m2 total : Q) :
  m1 <= m2 ->
  0 <= long_pause_freq silences m2 total
  /\ long_pause_freq silences m2 total <= long_pause_freq silences m1 total.
Proof.
  intros Hm. rewrite !long_pause_freq_rate. unfold long_pause_rate.
  destruct (total <=? 1e-6) eqn:E; qtest_hyps; [split; lra|].
  assert (Hmicro : 0 < 1e-6) by reflexivity.
  assert (Hd : 0 < total / 60) by (apply Qlt_shift_div_l; lra).
  set (n2 := List.length (filter (fun x => m2 <=? snd x - fst x) silences)).
  set (n1 := List.length (filter (fun x => m1 <=? snd x - fst x) silences)).
  assert (Hn : (n2 <= n1)%nat).
  { apply filter_weaker_length. intros a Ha. qtest_hyps. apply Qleb_le. lra. }
  assert (H0 : 0 <= Qnat n2) by (apply (Qnat_le 0 n2); lia).
  pose proof (Qnat_le _ _ Hn) as Hq.
  split.
  - apply Qle_shift_div_l; [exact Hd | lra].
  - apply Qle_shift_div_l; [exact Hd|].
    assert (Hdiv : Qnat n2 / (total / 60) * (total / 60) == Qnat n2)
      by (field; lra).
    rewrite Hdiv. exact Hq.
Qed.

Lemma long_pause_freq_antitone_witness :
  0 <= long_pause_freq [(0, 1); (2, 2.5); (4, 6)] 0.7 6
  /\ long_pause_freq [(0, 1); (2, 2.5); (4, 6)] 0.7 6
     <= long_pause_freq [(0, 1); (2, 2.5); (4, 6)] 0.4 6.
Proof.
  apply (long_pause_freq_antitone [(0, 1); (2, 2.5); (4, 6)] 0.4 0.7 6).
  discriminate.
Defined.

(** X21. When the detector's segments are well formed and lie inside
    the clip and more than a microsecond of speech is left after
    merging, the articulation rate of the evaluation is at least its
    speech rate. *)
Theorem process_one_rates_ordered (np_sqrt : Q -> Q)
    (np_arange_len : Q -> Q -> Q -> nat) (env : Env)
    (path vad_model : string) (hf_token : option string)
    (device compute_type asr_model : string) (use_prosody : bool)
    (long_pause_sec mlfr_pause_sec total : Q) (timeline : list seg) :
  soundfile_duration env = inr total ->
  pyannote_timeline env = inr timeline ->
  contained total timeline ->
  1e-6 < sum_lengths (merge_timeline timeline) ->
  exists r,
    snd (process_one np_sqrt np_arange_len env path vad_model hf_token device compute_type
           asr_model use_prosody long_pause_sec mlfr_pause_sec) = inr (Scored r)
    /\ SR r <= AR r.
Proof.
  intros Hdur Hvad Hin Hspeech.
  assert (Hmicro : 0 < 1e-6) by reflexivity.
  assert (HT : 0 <= total).
  { destruct timeline as [|x l].
    - unfold merge_timeline, sum_lengths in Hspeech. simpl in Hspeech. lra.
    - inversion Hin as [|? ? (? & ? & ?) _]; subst. lra. }
  destruct (merged_speech_time total timeline HT Hin) as (_ & Hle & _).
  set (ts := sum_lengths (merge_timeline timeline)) in *.
  assert (Hnz : (total =? 0) = false) by (apply Qeqb_neq; lra).
  rewrite process_one_outcome. unfold evaluation_outcome.
  rewrite Hdur, Hnz, Hvad. eexists. split; [reflexivity|].
  cbn [scoring_stage SR AR features_with_vad f_SR f_AR]. fold ts.
  assert (E1 : (0 <? ts) = true) by (apply Qltb_lt; lra).
  rewrite E1. unfold words_per_min.
  assert (E2 : (ts <=? 1e-6) = false) by (apply Qleb_gt; lra).
  assert (E3 : (total <=? 1e-6) = false) by (apply Qleb_gt; lra).
  rewrite E2, E3.
  set (n := Qnat (List.length (counted_words env))).
  assert (Hn : 0 <= n) by (apply (Qnat_le 0); lia).
  assert (Hd1 : 0 < ts / 60) by (apply Qlt_shift_div_l; lra).
  assert (Hd2 : 0 < total / 60) by (apply Qlt_shift_div_l; lra).
  apply Qle_shift_div_l; [exact Hd1|].
  assert (Hdiv : n / (total / 60) * (ts / 60) == n * (ts / total))
    by (field; lra).
  rewrite Hdiv.
  assert (Hr : ts / total <= 1) by (apply Qle_shift_div_r; lra).
  assert (Hr0 : 0 <= ts / total) by (apply Qle_shift_div_l; lra).
  nra.
Qed.

Lemma process_one_rates_ordered_witness :
  exists r,
    snd (process_one sqrt_milli arange_len_exact env_three_words "clip.wav"
           "pyannote/voice-activity-detection" None "cpu" "int8" "small.en"
           true 0.7 0.25) = inr (Scored r)
    /\ SR r <= AR r.
Proof.
  apply (process_one_rates_ordered sqrt_milli arange_len_exact env_three_words "clip.wav"
           "pyannote/voice-activity-detection" None "cpu" "int8" "small.en"
           true 0.7 0.25 20 [(0.5, 2.0); (2.1, 3.0); (6.0, 9.0)]).
  - reflexivity.
  - reflexivity.
  - repeat constructor; cbn; discriminate.
  - vm_compute. reflexivity.
Defined.

(** ** Recognized words *)

Lemma has_alpha_nonempty (w : Word) : has_alpha w = true -> text w <> ""%string.
Proof.
  unfold has_alpha. intros H E. rewrite E in H. discriminate.
Qed.

(** X22. The recognizer's wrapper returns no word with an empty text,
    and dropping the blank words there changes nothing in what the
    evaluation counts: the counted words are the recognized words whose
    stripped text holds a letter, in the recognizer's order and with its
    times. *)
Theorem counted_words_are_lettered (raw : list Word) :
  Forall (fun w => text w <> ""%string) (collect_words raw)
  /\ filter has_alpha (collect_words raw)
     = filter has_alpha
         (map (fun w => mkWord (strip (text w)) (start w) (end_ w)) raw)
  /\ (List.length (filter has_alpha (collect_words raw)) <= List.length raw)%nat.
Proof.
  unfold collect_words. split; [|split].
  - induction raw as [|w r IH]; cbn [filter map]; [constructor|].
    destruct (String.eqb (strip (text w)) "") eqn:E; cbn [negb map]; [exact IH|].
    constructor; [|exact IH]. cbn [text]. apply String.eqb_neq, E.
  - induction raw as [|w r IH]; cbn [filter map]; [reflexivity|].
    destruct (String.eqb (strip (text w)) "") eqn:E; cbn [negb map filter].
    + apply String.eqb_eq in E.
      assert (Hno : has_alpha (mkWord (strip (text w)) (start w) (end_ w)) = false)
        by (unfold has_alpha; cbn [text]; rewrite E; reflexivity).
      rewrite Hno. exact IH.
    + rewrite IH. reflexivity.
  - induction raw as [|w r IH]; cbn [filter map List.length]; [lia|].
    destruct (String.eqb (strip (text w)) ""); cbn [negb map filter List.length].
    + lia.
    + destruct (has_alpha _); cbn [List.length]; lia.
Qed.

(** ** The tutoring client *)

Section ClientProperties.

Variable Audio File : Type.
Variable py_str_float : Q -> string.
Variable py_str_result : result_dict -> string.
Variable py_lower : string -> string.
Variable parse_sections : string -> list (string * string).
Variable encode_image_to_base64 : File -> string.
Variable transcriptions_create : Audio -> exn + string.
Variable chat_completions_create : string -> list ApiClient.content -> exn + string.

Let process :=
  ApiClient.process Audio File py_str_float py_str_result py_lower parse_sections
    encode_image_to_base64 transcriptions_create chat_completions_create.

Let build_user_content :=
  ApiClient.build_user_content File py_lower encode_image_to_base64.

Ltac run_client :=
  unfold process, ApiClient.process, ApiClient.refine_expression,
    ApiClient.speech2text, ApiClient.evaluate_fluency, ApiClient.parse_ai_output,
    ApiClient.cbind, ApiClient.cprint, ApiClient.cret, ApiClient.craise.

(** X23. [process] refuses a request with [ValueError] exactly when it
    carries neither audio nor text, and then nothing has been sent or
    printed. *)
Theorem process_value_error (user_text : string)
    (image_list : list (ApiClient.ImageItem File)) (user_audio : option Audio)
    (msg : string) :
  (snd (process user_text image_list user_audio) = inl (ApiClient.ValueError msg)
   <-> (user_audio = None /\ user_text = ""%string
        /\ msg = "[ERROR] Either audio input or user text is required."%string))
  /\ process ""%string image_list None
     = ([], inl (ApiClient.ValueError
                   "[ERROR] Either audio input or user text is required.")).
Proof.
  split; [|reflexivity].
  run_client. destruct user_audio as [audio|].
  - destruct (transcriptions_create audio) as [e|t]; cbn [snd].
    + split; [discriminate | intros (H & _); discriminate].
    + destruct (chat_completions_create _ _) as [e|out]; cbn [snd].
      * split; [discriminate | intros (H & _); discriminate].
      * destruct (String.eqb out ""); cbn [snd];
          (split; [discriminate | intros (H & _); discriminate]).
  - destruct (String.eqb user_text "") eqn:E; cbn [snd].
    + apply String.eqb_eq in E. split.
      * intros H. injection H as <-. auto.
      * intros (_ & _ & ->). reflexivity.
    + apply String.eqb_neq in E.
      destruct (chat_completions_create _ _) as [e|out]; cbn [snd].
      * split; [discriminate | intros (_ & H & _); contradiction].
      * destruct (String.eqb out ""); cbn [snd];
          (split; [discriminate | intros (_ & H & _); contradiction]).
Qed.

(** When audio comes with the request, the typed text is not used:
    the transcription takes its place, whatever was typed. *)
Theorem process_audio_overrides_text (text1 text2 : string)
    (image_list : list (ApiClient.ImageItem File)) (audio : Audio) :
  process text1 image_list (Some audio) = process text2 image_list (Some audio).
Proof. reflexivity. Qed.

(** X24. What the chat model is asked.  With audio, the fluency shown
    in the system prompt is the fixed record of the mock evaluation
    (score 0.78, level "Advanced") whatever the audio holds, and the
    transcription fills both the transcript and the typed-text entry of
    the user message; without audio, the prompt says that no fluency
    data was provided and the typed text fills both entries. *)
Theorem process_chat_request (user_text : string)
    (image_list : list (ApiClient.ImageItem File)) (user_audio : option Audio)
    (system_prompt : string) (user_content : list ApiClient.content) :
  In (ApiClient.Chat Audio system_prompt user_content)
     (fst (process user_text image_list user_audio)) ->
  match user_audio with
  | Some audio =>
      system_prompt
      = ApiClient.build_system_prompt File image_list
          (ApiClient.nl ++ "The user's spoken fluency was automatically evaluated as follows:"
           ++ ApiClient.nl ++ "- Fluency Score: " ++ py_str_float 0.78
           ++ ApiClient.nl ++ "- Fluency Level: Advanced" ++ ApiClient.nl
           ++ "You should incorporate this numerical information into your feedback.")%string
      /\ exists transcript,
           transcriptions_create audio = inr transcript
           /\ user_content = build_user_content transcript transcript image_list
  | None =>
      system_prompt = ApiClient.build_system_prompt File image_list ""
      /\ user_text <> ""%string
      /\ user_content = build_user_content user_text user_text image_list
  end.
Proof.
  run_client. destruct user_audio as [audio|].
  - destruct (transcriptions_create audio) as [e|t].
    + cbn. intros [H | []]. discriminate.
    + destruct (chat_completions_create _ _) as [e|out];
        [|destruct (String.eqb out "")];
        cbn [fst app In]; intros H;
        repeat (destruct H as [H | H]; try discriminate; try contradiction);
        injection H as <- <-; (split; [reflexivity|]); exists t; split; reflexivity.
  - destruct (String.eqb user_text "") eqn:E.
    + cbn. intros [].
    + apply String.eqb_neq in E.
      destruct (chat_completions_create _ _) as [e|out];
        [|destruct (String.eqb out "")];
        cbn [fst app In]; intros H;
        repeat (destruct H as [H | H]; try discriminate; try contradiction);
        injection H as <- <-; repeat split; auto.
Qed.

(** X25. The user message is never empty and begins with a text entry:
    one entry per text given (or one stand-in when none is), then two
    entries per image. *)
Theorem build_user_content_shape (transcript typed_text : string)
    (image_list : list (ApiClient.ImageItem File)) :
  List.length (build_user_content transcript typed_text image_list)
  = ((if String.eqb transcript "" then 0 else 1)
     + (if String.eqb typed_text "" then 0 else 1)
     + (if String.eqb transcript "" && String.eqb typed_text "" then 1 else 0)
     + 2 * List.length image_list)%nat
  /\ exists t rest,
       build_user_content transcript typed_text image_list
       = ApiClient.TextPart t :: rest.
Proof.
  unfold build_user_content, ApiClient.build_user_content.
  assert (Himg : List.length
                   (flat_map (ApiClient.image_parts File py_lower encode_image_to_base64)
                             image_list)
                 = (2 * List.length image_list)%nat).
  { induction image_list as [|i l IH]; [reflexivity|].
    cbn [flat_map]. rewrite length_app, IH. cbn [ApiClient.image_parts List.length]. lia. }
  destruct (String.eqb transcript ""); destruct (String.eqb typed_text "");
    cbn [andb app List.length]; rewrite ?length_app, ?Himg; cbn [List.length];
    (split; [lia | eauto]).
Qed.

End ClientProperties.

Lemma process_chat_request_witness :
  ApiClient.build_system_prompt nat []
    (ApiClient.build_fluency_context (fun _ => "0.78"%string) (Some (Scored mock_result)))
  = ApiClient.build_system_prompt nat []
      (ApiClient.nl ++ "The user's spoken fluency was automatically evaluated as follows:"
       ++ ApiClient.nl ++ "- Fluency Score: " ++ "0.78"
       ++ ApiClient.nl ++ "- Fluency Level: Advanced" ++ ApiClient.nl
       ++ "You should incorporate this numerical information into your feedback.")%string
  /\ exists transcript,
       inr "hello"%string = inr transcript :> exn + string
       /\ ApiClient.build_user_content nat (fun s => s) (fun _ => ""%string)
            "hello" "hello" []
          = ApiClient.build_user_content nat (fun s => s) (fun _ => ""%string)
              transcript transcript [].
Proof.
  apply (process_chat_request nat nat (fun _ => "0.78"%string)
           (fun _ => "{...}"%string) (fun s => s) (fun _ => [])
           (fun _ => ""%string) (fun _ => inr "hello"%string)
           (fun _ _ => inr "1. Feedback"%string)
           "typed"%string [] (Some 7%nat)).
  vm_compute. auto 10.
Defined.

(** ** Calls made by an evaluation *)

(** X26. An evaluation reads the duration first and stops there on empty
    audio or when the read fails; otherwise it calls the detector and
    the recognizer once each, in that order, and the prosody analysis
    once after them exactly when prosody is requested and the evaluation
    is going to return. *)
Theorem process_one_calls (np_sqrt : Q -> Q)
    (np_arange_len : Q -> Q -> Q -> nat) (env : Env)
    (path vad_model : string) (hf_token : option string)
    (device compute_type asr_model : string) (use_prosody : bool)
    (long_pause_sec mlfr_pause_sec : Q) :
  calls_of (fst (process_one np_sqrt np_arange_len env path vad_model hf_token device
                   compute_type asr_model use_prosody long_pause_sec mlfr_pause_sec))
  = match soundfile_duration env with
    | inl _ => ["soundfile.info"%string]
    | inr total =>
        if total =? 0 then ["soundfile.info"%string]
        else ["soundfile.info"; "pyannote.Pipeline"; "WhisperModel.transcribe"]%string
             ++ match evaluation_outcome np_sqrt np_arange_len env use_prosody
                        long_pause_sec mlfr_pause_sec with
                | inr _ => if use_prosody then ["librosa"%string] else []
                | inl _ => []
                end
    end.
Proof.
  destruct env as [dur vad asr pros].
  unfold evaluation_outcome, counted_words. run_process_one.
  cbn [soundfile_duration pyannote_timeline whisper_words librosa_prosody].
  destruct dur as [e|total]; [reflexivity|].
  destruct (total =? 0); [reflexivity|].
  destruct vad as [ev|timeline]; destruct asr as [ea|raw];
    cbn [app fst snd List.length filter];
    try (destruct (filter has_alpha (collect_words raw)) as [|w ws]);
    cbn [List.length Nat.ltb Nat.leb];
    try reflexivity;
    (destruct use_prosody; [destruct pros as [ep|[f0 rms]]|]); reflexivity.
Qed.

Lemma level_from_score_new_monotone_witness :
  (level_rank (level_from_score_new 0.42) <= level_rank (level_from_score_new 0.61))%nat.
Proof.
  apply (level_from_score_new_monotone 0.42 0.61). discriminate.
Defined.
